(** * Inventory & Sales Tracker: a shallow embedding of [app.py]

    The Flask handlers of [app.py] are embedded as functions on an explicit
    model of the SQLite database ([inventory.db]) they share.

    - A table with an [INTEGER PRIMARY KEY] is a finite map from the rowid
      to the remaining columns ([gmap Z _]); the [UNIQUE] constraint on
      [products.name] is checked by the modelled [INSERT].
    - [INTEGER] columns are [Z]; Python integers are unbounded, and the
      [sqlite3] driver raises [OverflowError] when asked to bind one that
      does not fit 64 bits, which the model writes out.
    - The [REAL] column [price] is an exact rational ([Q]); rounding and the
      special values of IEEE doubles are outside the model.
    - [SUM] over an [INTEGER] column adds in 64 bits and fails with
      'integer overflow' when a partial sum leaves the range, which the
      model writes out.
    - Python's [int] and [float], werkzeug's [secure_filename] and SQLite's
      coercion of a text parameter compared with an integer column are not
      code of this repository: the handlers take them as parameters.
    - [process_sale], the one handler with a recovery path for storage
      failures, runs in a small state-and-exception monad over a connection
      with an open transaction and a schedule of injected faults. *)

From stdpp Require Import gmap strings list fin_maps numbers sorting.
From Stdlib Require Import QArith Ascii.

Local Open Scope Z_scope.

(* ===================================================================== *)
(** ** Storage schema ([init_db], the two [CREATE TABLE] statements) *)
(* ===================================================================== *)

(** A row of [products]; the column [id] is the key of the table. The
    schema lets [image_url] and [is_watched] be [NULL], but every [INSERT]
    of the program gives them a value ([is_watched] by its [DEFAULT 0]). *)
Record Product := {
  name : string;
  price : Q;
  stock : Z;
  low_stock_threshold : Z;
  image_url : string;
  is_watched : Z;
}.

(** A row of [sales]; [product_id] is declared as a foreign key, which
    SQLite does not enforce unless asked to. *)
Record Sale := {
  product_id : Z;
  quantity : Z;
  sale_date : string;
}.

Record DB := {
  products : gmap Z Product;
  sales : gmap Z Sale;
}.

Definition set_products (t : gmap Z Product) (db : DB) : DB :=
  {| products := t; sales := sales db |}.

Definition set_sales (t : gmap Z Sale) (db : DB) : DB :=
  {| products := products db; sales := t |}.

Definition set_stock (n : Z) (p : Product) : Product :=
  {| name := name p; price := price p; stock := n;
     low_stock_threshold := low_stock_threshold p;
     image_url := image_url p; is_watched := is_watched p |}.

Definition set_is_watched (n : Z) (p : Product) : Product :=
  {| name := name p; price := price p; stock := stock p;
     low_stock_threshold := low_stock_threshold p;
     image_url := image_url p; is_watched := n |}.

(** Exceptions of the [sqlite3] driver that the handlers can meet. *)
Inductive Exn :=
| OverflowError      (* Python int too large to convert to SQLite INTEGER *)
| IntegrityError     (* a UNIQUE or NOT NULL constraint failed *)
| OperationalError.  (* the storage layer failed, or no transaction is active *)

(** The integers the driver can bind: SQLite's signed 64-bit [INTEGER]. *)
Definition sqlite_integer (n : Z) : bool :=
  (- 2 ^ 63 <=? n) && (n <? 2 ^ 63).

(** The rowid SQLite gives to a row inserted without one: 1 in an empty
    table, otherwise one more than the largest rowid in use (as long as
    that one is below the largest 64-bit integer, which no sequence of
    such inserts reaches in practice). *)
Definition max_rowid {A} (t : gmap Z A) : option Z :=
  map_fold (λ k _ acc, Some (from_option (Z.max k) k acc)) None t.

Definition next_rowid {A} (t : gmap Z A) : Z :=
  from_option Z.succ 1 (max_rowid t).

(** [name TEXT NOT NULL UNIQUE]: byte-wise comparison of the names. *)
Definition name_taken (n : string) (t : gmap Z Product) : bool :=
  bool_decide (map_Exists (λ _ p, name p = n) t).

(** [INSERT INTO products (name, price, stock, low_stock_threshold,
    image_url \[, is_watched\])]. *)
Definition insert_product (p : Product) (db : DB) : Exn + DB :=
  if name_taken (name p) (products db) then inl IntegrityError
  else inr (set_products (<[next_rowid (products db) := p]> (products db)) db).

(** [INSERT INTO sales (product_id, quantity, sale_date)]. *)
Definition insert_sale (s : Sale) (db : DB) : DB :=
  set_sales (<[next_rowid (sales db) := s]> (sales db)) db.

(** [UPDATE products SET stock = ? WHERE id = ?]. *)
Definition update_stock (new_stock id : Z) (db : DB) : DB :=
  set_products (alter (set_stock new_stock) id (products db)) db.

(** [UPDATE products SET is_watched = ? WHERE id = ?]. *)
Definition update_is_watched (new_status id : Z) (db : DB) : DB :=
  set_products (alter (set_is_watched new_status) id (products db)) db.

(** [DELETE FROM products WHERE id = ?]. *)
Definition delete_from_products (id : Z) (db : DB) : DB :=
  set_products (delete id (products db)) db.

(* ===================================================================== *)
(** ** What a handler gives back *)
(* ===================================================================== *)

Inductive Endpoint := Index | AddProduct.

Inductive Category := CatError | CatSuccess.

(** The calls of [flash] in [app.py], one constructor each, with the values
    formatted into the message. *)
Inductive Flash :=
| NumbersRequired                     (* 'Price, Stock, and Threshold must be numbers.' *)
| FileTypeNotAllowed                  (* 'File type not allowed. ...' *)
| FieldsInvalid                       (* 'All fields must be filled out correctly.' *)
| ProductAdded (n : string)           (* 'Product "{name}" added successfully!' *)
| NameExists (n : string)             (* 'Product name "{name}" already exists.' *)
| ProductDeleted                      (* 'Product deleted successfully!' *)
| QuantityNotPositive                 (* 'Quantity must be a positive number.' *)
| InvalidQuantity                     (* 'Invalid quantity.' *)
| ProductNotFound                     (* 'Product not found.' *)
| InsufficientStock (current_stock : Z) (* 'Sale failed: Only {current_stock} units ...' *)
| SaleProcessed (q : Z)               (* 'Sale processed successfully: {quantity} units sold.' *)
| SaleError (e : Exn).                (* 'An error occurred during sale processing: {e}' *)

Definition category (f : Flash) : Category :=
  match f with
  | ProductAdded _ | ProductDeleted | SaleProcessed _ => CatSuccess
  | _ => CatError
  end.

Inductive Response :=
| Redirect (e : Endpoint)             (* redirect(url_for(e)) *)
| RenderTemplate (e : Endpoint)       (* render_template of the page of e *)
| JsonUpdated (new_status : Z)        (* 200, success: True, new_status *)
| JsonNotFound                        (* 404, success: False, 'Product not found' *)
| JsonError (e : Exn)                 (* 500, success: False, str(e) *)
| Uncaught (e : Exn).                 (* an exception left the handler: HTTP 500 *)

Record Reply := {
  flashed : list Flash;
  response : Response;
}.

(* ===================================================================== *)
(** ** [delete_product] and [toggle_watchlist] *)
(* ===================================================================== *)

(** [delete_product(product_id)]: one [DELETE], committed; nothing catches
    the driver's refusal to bind an integer outside 64 bits. *)
Definition delete_product (product_id : Z) (db : DB) : DB * Reply :=
  if sqlite_integer product_id then
    (delete_from_products product_id db,
     {| flashed := [ProductDeleted]; response := Redirect Index |})
  else (db, {| flashed := []; response := Uncaught OverflowError |}).

(** [toggle_watchlist(product_id)]: read the flag, write the other value. *)
Definition toggle_watchlist (product_id : Z) (db : DB) : DB * Reply :=
  if sqlite_integer product_id then
    match products db !! product_id with
    | None => (db, {| flashed := []; response := JsonNotFound |})
    | Some current_status =>
        let new_status := if is_watched current_status =? 0 then 1 else 0 in
        (update_is_watched new_status product_id db,
         {| flashed := []; response := JsonUpdated new_status |})
    end
  else (db, {| flashed := []; response := JsonError OverflowError |}).

(* ===================================================================== *)
(** ** A connection: transactions, failures, flashed messages *)
(* ===================================================================== *)

(** What [get_db_connection()] returns, for one request. A statement sees
    the working copy of the open transaction, or the committed database
    when none is open. Each access to the storage consumes one flag of
    [faults]; a [true] flag makes it fail. *)
Record Conn := {
  disk : DB;
  txn : option DB;
  faults : list bool;
  session : list Flash;
}.

Inductive Res (A : Type) :=
| Ok (a : A)
| Raise (e : Exn).
Arguments Ok {A} a.
Arguments Raise {A} e.

Definition M (A : Type) : Type := Conn → Res A * Conn.

#[global] Instance M_ret : MRet M := λ A a c, (Ok a, c).

#[global] Instance M_bind : MBind M := λ A B f m c,
  match m c with
  | (Ok a, c') => f a c'
  | (Raise e, c') => (Raise e, c')
  end.

Definition raise {A} (e : Exn) : M A := λ c, (Raise e, c).

(** A step given directly as a function of the connection. *)
Definition step {A} (f : Conn → Res A * Conn) : M A := f.

(** [try: body except Exception as e: handler(e)]. *)
Definition try_except {A} (body : M A) (handler : Exn → M A) : M A := λ c,
  match body c with
  | (Ok a, c') => (Ok a, c')
  | (Raise e, c') => handler e c'
  end.

(** [try: body finally: cleanup], for a cleanup that cannot fail. *)
Definition try_finally {A} (body : M A) (cleanup : Conn → Conn) : M A := λ c,
  let '(r, c') := body c in (r, cleanup c').

Definition view (c : Conn) : DB := default (disk c) (txn c).

Definition with_txn (t : option DB) (c : Conn) : Conn :=
  {| disk := disk c; txn := t; faults := faults c; session := session c |}.

(** One access to the storage layer. *)
Definition storage_call : M () := λ c,
  match faults c with
  | [] => (Ok (), c)
  | b :: rest =>
      let c' := {| disk := disk c; txn := txn c; faults := rest;
                   session := session c |} in
      if b then (Raise OperationalError, c') else (Ok (), c')
  end.

(** [flash(message, category)]. *)
Definition flash (f : Flash) : M () := λ c,
  (Ok (), {| disk := disk c; txn := txn c; faults := faults c;
             session := session c ++ [f] |}).

(** The driver converts an integer parameter before the statement runs. *)
Definition bind_int (n : Z) : M () :=
  if sqlite_integer n then mret () else raise OverflowError.

(** [conn.execute('BEGIN TRANSACTION')]. *)
Definition begin_transaction : M () :=
  storage_call;;
  step (λ c,
    match txn c with
    | Some _ => (Raise OperationalError, c)
    | None => (Ok (), with_txn (Some (disk c)) c)
    end).

(** [conn.execute('SELECT ...').fetchone()]. *)
Definition select {A} (q : DB → A) : M A :=
  storage_call;; step (λ c, (Ok (q (view c)), c)).

(** [conn.execute] of an [INSERT], [UPDATE] or [DELETE]: the driver opens a
    transaction when none is open. *)
Definition execute (w : DB → DB) : M () :=
  storage_call;; step (λ c, (Ok (), with_txn (Some (w (view c))) c)).

(** [conn.commit()]. *)
Definition commit : M () :=
  storage_call;;
  step (λ c,
    (Ok (), {| disk := view c; txn := None; faults := faults c;
               session := session c |})).

(** [conn.execute('ROLLBACK')]: an error when no transaction is active. *)
Definition rollback : M () :=
  storage_call;;
  step (λ c,
    match txn c with
    | Some _ => (Ok (), with_txn None c)
    | None => (Raise OperationalError, c)
    end).

(** [conn.close()]: what was not committed is lost. *)
Definition close (c : Conn) : Conn := with_txn None c.

Definition connect (schedule : list bool) (db : DB) : Conn :=
  {| disk := db; txn := None; faults := schedule; session := [] |}.

(** The reply of a handler whose body ran on a connection. *)
Definition reply_of {A} (ok : Response) (r : Res A * Conn) : DB * Reply :=
  (disk r.2,
   {| flashed := session r.2;
      response := match r.1 with Ok _ => ok | Raise e => Uncaught e end |}).

(* ===================================================================== *)
(** ** [process_sale] *)
(* ===================================================================== *)

(** One sale request: the form, the clock, the faults the storage will
    show during it. *)
Record SaleRequest := {
  sr_form : gmap string string;
  sr_now : string;
  sr_schedule : list bool;
}.

Section process_sale.

(** [int(s)] of Python on a string: [None] stands for [ValueError]. *)
Variable py_int : string → option Z.

(** The integer that SQLite compares with [products.id], and stores in
    [sales.product_id], for a text parameter: [None] when the text is not
    the literal of an integral number. *)
Variable sqlite_numeric : string → option Z.

(** [int(request.form.get('quantity'))]: a missing field is [int(None)],
    a [TypeError]; both exceptions are caught together. *)
Definition form_quantity (form : gmap string string) : option Z :=
  form !! "quantity" ≫= py_int.

(** The row that [id = ?] selects when [?] is the form's [product_id];
    a missing field is bound as [NULL] and selects nothing. *)
Definition form_product_key (form : gmap string string) : option Z :=
  form !! "product_id" ≫= sqlite_numeric.

(** The body of the [try] block. The [return] statements after the two
    [ROLLBACK]s leave the block; nothing follows it but the redirect. The
    three statements bind the same [product_id]; [sales.product_id] is
    [NOT NULL], a branch that is not reached once a product was found. *)
Definition sale_transaction (key : option Z) (quantity : Z) (now : string)
  : M () :=
  begin_transaction;;
  product ← select (λ db, k ← key; stock <$> products db !! k);
  match product with
  | None =>
      flash ProductNotFound;;
      rollback
  | Some current_stock =>
      if current_stock <? quantity then
        flash (InsufficientStock current_stock);;
        rollback
      else
        let new_stock := current_stock - quantity in
        bind_int new_stock;;
        execute (λ db, from_option (λ k, update_stock new_stock k db) db key);;
        bind_int quantity;;
        match key with
        | None => raise IntegrityError
        | Some k =>
            execute (insert_sale {| product_id := k; quantity := quantity;
                                    sale_date := now |})
        end;;
        commit;;
        flash (SaleProcessed quantity)
  end.

Definition process_sale (form : gmap string string) (now : string)
    (schedule : list bool) (db : DB) : DB * Reply :=
  match form_quantity form with
  | None =>
      (db, {| flashed := [InvalidQuantity]; response := Redirect Index |})
  | Some quantity =>
      if quantity <=? 0 then
        (db, {| flashed := [QuantityNotPositive];
                response := Redirect Index |})
      else
        reply_of (Redirect Index)
          (try_finally
             (try_except
                (sale_transaction (form_product_key form) quantity now)
                (λ e, rollback;; flash (SaleError e)))
             close
             (connect schedule db))
  end.

(** Sale requests served one after the other. *)
Definition run_sales (reqs : list SaleRequest) (db : DB) : DB :=
  foldl (λ db r,
           (process_sale (sr_form r) (sr_now r) (sr_schedule r) db).1)
        db reqs.

End process_sale.

(* ===================================================================== *)
(** ** [allowed_file] *)
(* ===================================================================== *)

Definition LOW_STOCK_THRESHOLD : Z := 10.

Definition UPLOAD_FOLDER : string := "static".

Definition ALLOWED_EXTENSIONS : list string := ["png"; "jpg"; "jpeg"; "gif"].

(** [str.lower] on the letters A-Z. No other character lowers to a letter
    that occurs in [ALLOWED_EXTENSIONS]. *)
Definition lower_ascii (a : ascii) : ascii :=
  let n := N_of_ascii a in
  if ((65 <=? n) && (n <=? 90))%N then ascii_of_N (n + 32) else a.

Fixpoint lower (s : string) : string :=
  match s with
  | EmptyString => EmptyString
  | String a rest => String (lower_ascii a) (lower rest)
  end.

(** [filename.rsplit('.', 1)\[1\]], or [None] when ['.' in filename] is
    false. *)
Fixpoint after_last_dot (s : string) : option string :=
  match s with
  | EmptyString => None
  | String a rest =>
      match after_last_dot rest with
      | Some ext => Some ext
      | None => if bool_decide (a = "."%char) then Some rest else None
      end
  end.

Definition allowed_file (filename : string) : bool :=
  match after_last_dot filename with
  | Some ext => bool_decide (lower ext ∈ ALLOWED_EXTENSIONS)
  | None => false
  end.

(* ===================================================================== *)
(** ** [add_product] *)
(* ===================================================================== *)

Inductive Method := GET | POST.

(** An entry of [request.files]. *)
Record FileStorage := {
  filename : string;
  content : string;
}.

Record Request := {
  method : Method;
  form : gmap string string;
  files : gmap string FileStorage;
}.

(** The database and the files of [UPLOAD_FOLDER], by name. *)
Record World := {
  database : DB;
  static : gmap string string;
}.

Definition no_flash (w : World) (r : Response) : World * Reply :=
  (w, {| flashed := []; response := r |}).

Definition flash_and (w : World) (f : Flash) (r : Response) : World * Reply :=
  (w, {| flashed := [f]; response := r |}).

Section add_product.

(** [int(s)] and [float(s)] of Python: [None] stands for [ValueError]. *)
Variable py_int : string → option Z.
Variable py_float : string → option Q.

(** [werkzeug.utils.secure_filename]. *)
Variable secure_filename : string → string.

(** [parse(form.get(k)) if form.get(k) else dflt]: a missing and an empty
    field are both false. *)
Definition form_number {A} (parse : string → option A) (dflt : A)
    (v : option string) : option A :=
  match v with
  | None => Some dflt
  | Some s => if bool_decide (s = "") then Some dflt else parse s
  end.

(** The upload step: the world after [file.save] and the new [image_url],
    or [None] when the file type is refused. *)
Definition image_upload (req : Request) (image_url : string) (w : World)
  : option (World * string) :=
  match files req !! "image_file" with
  | None => Some (w, image_url)
  | Some file =>
      if negb (bool_decide (filename file = "")) && allowed_file (filename file)
      then
        let fname := secure_filename (filename file) in
        Some ({| database := database w;
                 static := <[fname := content file]> (static w) |},
              fname)
      else if negb (bool_decide (filename file = ""))
              && negb (allowed_file (filename file))
      then None
      else Some (w, image_url)
  end.

(** [not name or price <= 0 or stock < 0 or threshold <= 0]. *)
Definition fields_invalid (name : option string) (price : Q)
    (stock threshold : Z) : bool :=
  match name with
  | None => true
  | Some n =>
      bool_decide (n = "") || Qle_bool price 0 || (stock <? 0)
      || (threshold <=? 0)
  end.

Definition add_product (req : Request) (w : World) : World * Reply :=
  match method req with
  | GET => no_flash w (RenderTemplate AddProduct)
  | POST =>
      let name := form req !! "name" in
      let image_url := default "" (form req !! "image_url_online") in
      match form_number py_float 0%Q (form req !! "price"),
            form_number py_int 0 (form req !! "stock"),
            form_number py_int 1 (form req !! "threshold") with
      | Some price, Some stock, Some threshold =>
          match image_upload req image_url w with
          | None => flash_and w FileTypeNotAllowed (Redirect AddProduct)
          | Some (w, image_url) =>
              if fields_invalid name price stock threshold then
                flash_and w FieldsInvalid (Redirect AddProduct)
              else if negb (sqlite_integer stock && sqlite_integer threshold)
              then no_flash w (Uncaught OverflowError)
              else
                let n := default "" name in
                match insert_product
                        {| name := n; price := price; stock := stock;
                           low_stock_threshold := threshold;
                           image_url := image_url; is_watched := 0 |}
                        (database w) with
                | inr db' =>
                    flash_and {| database := db'; static := static w |}
                      (ProductAdded n) (Redirect Index)
                | inl _ =>
                    flash_and w (NameExists n) (RenderTemplate AddProduct)
                end
          end
      | _, _, _ => flash_and w NumbersRequired (Redirect AddProduct)
      end
  end.

End add_product.

(* ===================================================================== *)
(** ** [init_db]: the initial rows *)
(* ===================================================================== *)

Definition initial_products : list Product :=
  [ {| name := "Shampoo"; price := 15; stock := 200;
       low_stock_threshold := 20; image_url := "shampoo.png";
       is_watched := 0 |};
    {| name := "Water Bottle"; price := 5; stock := 500;
       low_stock_threshold := 20; image_url := "water_bottle.png";
       is_watched := 1 |};
    {| name := "Energy Bar"; price := 5 # 2; stock := 80;
       low_stock_threshold := 5; image_url := "energy_bar.png";
       is_watched := 0 |} ].

Fixpoint insert_products (l : list Product) (db : DB) : Exn + DB :=
  match l with
  | [] => inr db
  | p :: rest =>
      match insert_product p db with
      | inr db' => insert_products rest db'
      | inl e => inl e
      end
  end.

(** The three inserts are committed together; on [IntegrityError] none of
    them is committed before the connection is closed. *)
Definition init_db (db : DB) : DB :=
  match insert_products initial_products db with
  | inr db' => db'
  | inl _ => db
  end.

(* ===================================================================== *)
(** ** [visualization]: the metrics *)
(* ===================================================================== *)

(** [SUM(...)]: [NULL] over no row. *)
Definition sql_sum (l : list Q) : option Q :=
  match l with
  | [] => None
  | _ => Some (foldr Qplus 0%Q l)
  end.

(** [total or 0.0]: [None] and zero are both false. *)
Definition or_zero (total : option Q) : Q :=
  match total with
  | Some x => if Qeq_bool x 0 then 0%Q else x
  | None => 0%Q
  end.

Definition rows {A} (t : gmap Z A) : list A := (map_to_list t).*2.

(** [SELECT SUM(stock * price) AS total FROM products]. *)
Definition total_value (db : DB) : Q :=
  or_zero (sql_sum ((λ p, inject_Z (stock p) * price p)%Q <$> rows (products db))).

(** [SELECT COUNT(id) AS count FROM sales]. *)
Definition total_orders (db : DB) : Z := Z.of_nat (size (sales db)).

(** [FROM sales s JOIN products p ON s.product_id = p.id]: an inner join;
    [id] is the key of [products], so a sale meets at most one product. *)
Definition sales_join_products (db : DB) : list (Sale * Product) :=
  omap (λ s, p ← products db !! product_id s; Some (s, p)) (rows (sales db)).

(** [SELECT SUM(s.quantity * p.price) AS revenue FROM sales s JOIN ...]. *)
Definition total_revenue (db : DB) : Q :=
  or_zero (sql_sum ((λ sp, inject_Z (quantity sp.1) * price sp.2)%Q
                      <$> sales_join_products db)).

(** What [visualization] hands to its template, but for [top_products],
    whose order among equal sums SQLite leaves open. *)
Record Metrics := {
  m_total_value : Q;
  m_total_orders : Z;
  m_total_revenue : Q;
}.

Definition visualization (db : DB) : Metrics :=
  {| m_total_value := total_value db;
     m_total_orders := total_orders db;
     m_total_revenue := total_revenue db |}.

(* ===================================================================== *)
(** ** [visualization]: the top sellers *)
(* ===================================================================== *)

(** [SUM] over [INTEGER] values: SQLite adds them in 64 bits and fails
    with 'integer overflow' as soon as a partial sum leaves the range. *)
Fixpoint sql_sum_int_from (acc : Z) (l : list Z) : Exn + Z :=
  match l with
  | [] => inr acc
  | x :: rest =>
      if sqlite_integer (acc + x) then sql_sum_int_from (acc + x) rest
      else inl OperationalError
  end.

Definition sql_sum_int (l : list Z) : Exn + Z := sql_sum_int_from 0 l.

Section top_products.

(** [ORDER BY units_sold DESC]: SQLite sorts the groups by their sums and
    leaves the order among equal sums open; the query is modelled for any
    ordering of the groups. *)
Variable order_by_units_desc : list (string * Z) → list (string * Z).

(** The groups of [GROUP BY p.name] over the join: the names of the
    products that the rows of sales meet. *)
Definition sold_names (db : DB) : list string :=
  remove_dups ((λ sp, name sp.2) <$> sales_join_products db).

(** The quantities of the group of a name. The order in which SQLite adds
    them is open; it plays no part when they are positive, as they are in
    every database the program produces. *)
Definition group_quantities (db : DB) (n : string) : list Z :=
  (λ sp, quantity sp.1) <$> filter (λ sp, name sp.2 = n)
                                   (sales_join_products db).

(** [SUM(s.quantity)] of the group of a name. *)
Definition units_of_name (db : DB) (n : string) : Exn + Z :=
  sql_sum_int (group_quantities db n).

Fixpoint group_sums (db : DB) (names : list string)
  : Exn + list (string * Z) :=
  match names with
  | [] => inr []
  | n :: rest =>
      match units_of_name db n with
      | inl e => inl e
      | inr units =>
          match group_sums db rest with
          | inl e => inl e
          | inr groups => inr ((n, units) :: groups)
          end
      end
  end.

Definition units_by_name (db : DB) : Exn + list (string * Z) :=
  group_sums db (sold_names db).

(** [... ORDER BY units_sold DESC LIMIT 5]. *)
Definition top_products (db : DB) : Exn + list (string * Z) :=
  match units_by_name db with
  | inl e => inl e
  | inr groups => inr (take 5 (order_by_units_desc groups))
  end.

(** [visualization] with its four queries: a failing query is an
    exception that nothing catches. *)
Definition visualization_page (db : DB)
  : Exn + (Metrics * list (string * Z)) :=
  match top_products db with
  | inl e => inl e
  | inr top => inr (visualization db, top)
  end.

End top_products.

(** The total quantity of the sales joined to the products of a name, as
    a number. *)
Definition joined_units (db : DB) (n : string) : Z :=
  foldr Z.add 0 (group_quantities db n).

(** What is known of the ordering: the result holds the given groups, the
    larger sums first. *)
Definition sorts_by_units_desc
    (order : list (string * Z) → list (string * Z)) : Prop :=
  ∀ l, order l ≡ₚ l ∧ StronglySorted (λ x y, y.2 ≤ x.2) (order l).

(** An ordering for the examples: a merge sort on the sums. *)
Definition by_units_desc (x y : string * Z) : Prop := y.2 ≤ x.2.

#[global] Instance by_units_desc_dec x y : Decision (by_units_desc x y).
Proof. unfold by_units_desc. apply _. Defined.

Definition merge_sort_units (l : list (string * Z)) : list (string * Z) :=
  merge_sort by_units_desc l.

(* ===================================================================== *)
(** ** Stand-ins for the parameters, to run the handlers on examples *)
(* ===================================================================== *)

Definition digit_value (a : ascii) : option Z :=
  let n := Z.of_N (N_of_ascii a) in
  if (48 <=? n) && (n <=? 57) then Some (n - 48) else None.

Fixpoint digits_value (acc : Z) (s : string) : option Z :=
  match s with
  | EmptyString => Some acc
  | String a rest => d ← digit_value a; digits_value (10 * acc + d) rest
  end.

(** Plain decimal literals with an optional sign, a fragment of what
    Python's [int] and SQLite's numeric coercion both accept, and on which
    they agree. *)
Definition decimal_literal (s : string) : option Z :=
  match s with
  | EmptyString => None
  | String "-"%char (String a rest) => Z.opp <$> digits_value 0 (String a rest)
  | String "+"%char (String a rest) => digits_value 0 (String a rest)
  | String "-"%char EmptyString | String "+"%char EmptyString => None
  | _ => digits_value 0 s
  end.

(** The product and the requests of the scenario of the specification. *)
Definition widget : Product :=
  {| name := "Widget"; price := 2; stock := 10; low_stock_threshold := 5;
     image_url := ""; is_watched := 0 |}.

Definition widget_db : DB := {| products := {[ 1 := widget ]}; sales := ∅ |}.

Definition sale_form (id qty : string) : gmap string string :=
  {[ "product_id" := id; "quantity" := qty ]}.

Definition widget_world : World :=
  {| database := widget_db; static := ∅ |}.

(** Creation requests: the widget again; a gadget without threshold and
    stock; a gadget with both an uploaded image and a URL. *)
Definition widget_request : Request :=
  {| method := POST;
     form := {[ "name" := "Widget"; "price" := "2.00"; "stock" := "10";
                "threshold" := "5" ]};
     files := ∅ |}.

Definition gadget_request : Request :=
  {| method := POST;
     form := {[ "name" := "Gadget"; "price" := "3.50" ]};
     files := ∅ |}.

Definition gadget_image : FileStorage :=
  {| filename := "gadget.PNG"; content := "image bytes" |}.

Definition gadget_upload_request : Request :=
  {| method := POST;
     form := {[ "name" := "Gadget"; "price" := "3.50"; "threshold" := "2";
                "image_url_online" := "http://example.org/gadget.png" ]};
     files := {[ "image_file" := gadget_image ]} |}.

(** Creation requests that are refused: no price; no price but an image;
    a stock beyond 64 bits. *)
Definition unpriced_request : Request :=
  {| method := POST; form := {[ "name" := "Gadget" ]}; files := ∅ |}.

Definition unpriced_upload_request : Request :=
  {| method := POST; form := {[ "name" := "Gadget" ]};
     files := {[ "image_file" := gadget_image ]} |}.

Definition huge_stock_request : Request :=
  {| method := POST;
     form := {[ "name" := "Gadget"; "price" := "3.50";
                "stock" := "9223372036854775808" ]};
     files := ∅ |}.

(** The database after four units of the widget were sold. *)
Definition sold_db : DB :=
  (process_sale decimal_literal decimal_literal (sale_form "1" "4")
     "2024-01-01 10:00:00" [] widget_db).1.

(** The database after four units of the widget were sold and the widget
    was deleted. *)
Definition orphan_db : DB :=
  (delete_product 1
     (process_sale decimal_literal decimal_literal (sale_form "1" "4")
        "2024-01-01 10:00:00" [] widget_db).1).1.

(** Digits, a point, digits: the decimal literals among what Python's
    [float] accepts, with their exact value. *)
Fixpoint split_point (s : string) : string * option string :=
  match s with
  | EmptyString => (EmptyString, None)
  | String a rest =>
      if bool_decide (a = "."%char) then (EmptyString, Some rest)
      else let '(whole, frac) := split_point rest in (String a whole, frac)
  end.

Definition decimal_number (s : string) : option Q :=
  match split_point s with
  | (whole, None) => inject_Z <$> decimal_literal whole
  | (whole, Some frac) =>
      w ← decimal_literal whole;
      f ← digits_value 0 frac;
      let scale := 10 ^ Z.of_nat (String.length frac) in
      let negative :=
        match whole with String "-"%char _ => true | _ => false end in
      Some (Qmake (w * scale + (if negative then - f else f))
                  (Z.to_pos scale))
  end.

(** [secure_filename] leaves a name of letters, digits and inner dots as
    it is; the examples use only such names. *)
Definition safe_filename (s : string) : string := s.

(* ===================================================================== *)
(** ** Notions used in the statements *)
(* ===================================================================== *)

(** The reply shows a message of category ['success']. *)
Definition is_success (f : Flash) : bool :=
  match category f with
  | CatSuccess => true
  | CatError => false
  end.

Definition reported_success (r : Reply) : bool :=
  existsb is_success (flashed r).

Definition stocks_nonneg (db : DB) : Prop :=
  map_Forall (λ _ p, 0 ≤ stock p) (products db).

Definition flag_boolean (p : Product) : Prop :=
  is_watched p = 0 ∨ is_watched p = 1.

Definition flags_boolean (db : DB) : Prop :=
  map_Forall (λ _ p, flag_boolean p) (products db).

(** The [UNIQUE] constraint on [products.name]. *)
Definition names_unique (t : gmap Z Product) : Prop :=
  ∀ i j p q, t !! i = Some p → t !! j = Some q → name p = name q → i = j.

(** What every handler keeps: the watch flags are 0 or 1, the stocks are
    not negative, no two products have the same name. *)
Definition well_formed (db : DB) : Prop :=
  flags_boolean db ∧ stocks_nonneg db ∧ names_unique (products db).

Definition empty_db : DB := {| products := ∅; sales := ∅ |}.

(** A product of which 2^63 units were sold, in five requests: created
    with the largest stock, sold out, deleted, created again under the
    same name, and sold once more. *)
Definition big_request (stock : string) : Request :=
  {| method := POST;
     form := {[ "name" := "Big"; "price" := "1"; "stock" := stock ]};
     files := ∅ |}.

Definition big_db : DB :=
  let d1 :=
    database (add_product decimal_literal decimal_number safe_filename
                (big_request "9223372036854775807")
                {| database := empty_db; static := ∅ |}).1 in
  let d2 :=
    (process_sale decimal_literal decimal_literal
       (sale_form "1" "9223372036854775807") "2024-01-01 10:00:00" [] d1).1 in
  let d3 := (delete_product 1 d2).1 in
  let d4 :=
    database (add_product decimal_literal decimal_number safe_filename
                (big_request "1") {| database := d3; static := ∅ |}).1 in
  (process_sale decimal_literal decimal_literal (sale_form "1" "1")
     "2024-01-01 10:05:00" [] d4).1.

(** The databases that the program produces from the empty tables, for
    whatever requests, parsers, clocks and storage faults. *)
Inductive reachable : DB → Prop :=
| reach_empty : reachable empty_db
| reach_init_db db : reachable db → reachable (init_db db)
| reach_add_product py_int py_float secure_filename req files db :
    reachable db →
    reachable
      (database (add_product py_int py_float secure_filename req
                   {| database := db; static := files |}).1)
| reach_delete_product id db :
    reachable db → reachable (delete_product id db).1
| reach_process_sale py_int sqlite_numeric form now schedule db :
    reachable db →
    reachable (process_sale py_int sqlite_numeric form now schedule db).1
| reach_toggle_watchlist id db :
    reachable db → reachable (toggle_watchlist id db).1.

(** [wp m c Q]: running [m] on the connection [c] ends with a result and a
    connection that satisfy [Q]. *)
Definition wp {A} (m : M A) (c : Conn) (Q : Res A → Conn → Prop) : Prop :=
  Q (m c).1 (m c).2.

(** The revenue in the words of the specification: every row of [sales]
    contributes its quantity times the current price of its product. There
    is no such sum when a row has no product. *)
Definition spec_total_revenue (db : DB) : option Q :=
  foldr (λ s acc, p ← products db !! product_id s;
                  rest ← acc;
                  Some (inject_Z (quantity s) * price p + rest)%Q)
        (Some 0%Q) (rows (sales db)).

(** What one row of [sales] adds to the revenue the program computes. *)
Definition sale_revenue (db : DB) (s : Sale) : Q :=
  match products db !! product_id s with
  | Some p => (inject_Z (quantity s) * price p)%Q
  | None => 0%Q
  end.

Section accepted.
Variable py_int : string → option Z.
Variable py_float : string → option Q.
Variable secure_filename : string → string.

(** A creation request whose name, price, stock and upload pass the
    checks of [add_product], with a stock that the driver can bind. *)
Record fields_accepted (req : Request) (n : string) (price : Q) (stock : Z)
  : Prop := {
  fa_method : method req = POST;
  fa_name : form req !! "name" = Some n;
  fa_name_filled : n ≠ "";
  fa_price : form_number py_float 0%Q (form req !! "price") = Some price;
  fa_price_positive : (0 < price)%Q;
  fa_stock : form_number py_int 0 (form req !! "stock") = Some stock;
  fa_stock_range : 0 ≤ stock < 2 ^ 63;
  fa_file : ∀ file, files req !! "image_file" = Some file →
            filename file = "" ∨ allowed_file (filename file) = true;
}.

(** The image reference of an accepted request: the secured name of the
    uploaded file when there is one, the URL of the form otherwise. *)
Definition stored_image (req : Request) : string :=
  match files req !! "image_file" with
  | Some file =>
      if bool_decide (filename file = "")
      then default "" (form req !! "image_url_online")
      else secure_filename (filename file)
  | None => default "" (form req !! "image_url_online")
  end.

(** The files of the upload folder after an accepted request. *)
Definition static_after (req : Request) (w : World) : gmap string string :=
  match files req !! "image_file" with
  | Some file =>
      if bool_decide (filename file = "") then static w
      else <[secure_filename (filename file) := content file]> (static w)
  | None => static w
  end.
End accepted.

(** ['.' in filename]. *)
Fixpoint has_dot (s : string) : bool :=
  match s with
  | EmptyString => false
  | String a rest => bool_decide (a = "."%char) || has_dot rest
  end.

(** Rows inserted one after the other, each under the next rowid. *)
Definition insert_all {A} (l : list A) (t : gmap Z A) : gmap Z A :=
  foldl (λ t x, <[next_rowid t := x]> t) t l.

(** One of the initial names is in use. *)
Definition initial_name_taken (db : DB) : bool :=
  existsb (λ p, name_taken (name p) (products db)) initial_products.

(** The units recorded as sold under a product id. *)
Definition sold_units (k : Z) (l : list Sale) : Z :=
  foldr Z.add 0
    ((λ s, if bool_decide (product_id s = k) then quantity s else 0) <$> l).

Definition units_sold (db : DB) (k : Z) : Z := sold_units k (rows (sales db)).

(** The current price of the product with an id, 0 when there is none. *)
Definition price_at (db : DB) (k : Z) : Q :=
  from_option price 0%Q (products db !! k).

(** The units of a product on hand and sold, together. *)
Definition on_hand_and_sold (db : DB) (k : Z) : Z :=
  from_option stock 0 (products db !! k) + units_sold db k.

(** What the program stores in a row of [products] and of [sales]. *)
Definition product_valid (p : Product) : Prop :=
  name p ≠ "" ∧ (0 < price p)%Q ∧ 0 ≤ stock p < 2 ^ 63
  ∧ 0 < low_stock_threshold p < 2 ^ 63 ∧ flag_boolean p.

Definition sale_valid (s : Sale) : Prop := 0 < quantity s < 2 ^ 63.

Definition rows_valid (db : DB) : Prop :=
  map_Forall (λ _ p, product_valid p) (products db)
  ∧ map_Forall (λ _ s, sale_valid s) (sales db).

(** The sum of a column expression over the rows of a table. *)
Definition table_sum {A} (f : A → Q) (t : gmap Z A) : Q :=
  foldr Qplus 0%Q (f <$> rows t).

(** The value in stock of one product. *)
Definition stock_value (p : Product) : Q := (inject_Z (stock p) * price p)%Q.

(* ===================================================================== *)
(** ** The storage layer *)
(* ===================================================================== *)

Section rowid.
Context {A : Type}.
Implicit Types t : gmap Z A.

Lemma max_rowid_bound t k :
  is_Some (t !! k) → ∃ m, max_rowid t = Some m ∧ k ≤ m.
Proof.
  unfold max_rowid. revert k.
  apply (map_fold_weak_ind
           (λ r (m : gmap Z A),
              ∀ k, is_Some (m !! k) → ∃ mx, r = Some mx ∧ k ≤ mx)).
  - intros k [x Hx]. by rewrite lookup_empty in Hx.
  - intros i x m r Hi IH k Hk.
    destruct (decide (i = k)) as [->|Hne].
    + destruct r as [mx|]; simpl; eexists; split; try done; lia.
    + rewrite lookup_insert_ne in Hk by done.
      destruct (IH k Hk) as (mx & -> & Hle). simpl.
      eexists; split; [done|lia].
Qed.

(** The rowid of a new row is not in use. *)
Lemma next_rowid_fresh t : t !! next_rowid t = None.
Proof.
  destruct (t !! next_rowid t) as [x|] eqn:E; [|done].
  destruct (max_rowid_bound t (next_rowid t)) as (m & Hm & Hle);
    [by eexists|].
  unfold next_rowid in Hle. rewrite Hm in Hle. simpl in Hle. lia.
Qed.
End rowid.

Lemma set_products_id db : set_products (products db) db = db.
Proof. by destruct db. Qed.

Lemma name_taken_spec n t :
  name_taken n t = true ↔ ∃ i p, t !! i = Some p ∧ name p = n.
Proof.
  unfold name_taken. rewrite bool_decide_eq_true. unfold map_Exists.
  naive_solver.
Qed.

Lemma insert_product_taken p db i p' :
  products db !! i = Some p' → name p' = name p →
  insert_product p db = inl IntegrityError.
Proof.
  intros Hi Hn. unfold insert_product.
  replace (name_taken (name p) (products db)) with true; [done|].
  symmetry. apply name_taken_spec. eauto.
Qed.

Lemma insert_product_free p db :
  name_taken (name p) (products db) = false →
  insert_product p db
  = inr (set_products (<[next_rowid (products db) := p]> (products db)) db).
Proof. intros H. unfold insert_product. by rewrite H. Qed.

(* ===================================================================== *)
(** ** Rules for runs on a connection *)
(* ===================================================================== *)

Section wp_rules.
Context {A B : Type}.

Lemma wp_ret (a : A) c Q : Q (Ok a) c → wp (mret a) c Q.
Proof. done. Qed.

Lemma wp_raise (e : Exn) c (Q : Res A → Conn → Prop) :
  Q (Raise e) c → wp (raise e) c Q.
Proof. done. Qed.

Lemma wp_bind (m : M A) (f : A → M B) c Q :
  wp m c (λ r c', match r with
                  | Ok a => wp (f a) c' Q
                  | Raise e => Q (Raise e) c'
                  end) →
  wp (m ≫= f) c Q.
Proof. unfold wp, mbind, M_bind. by destruct (m c) as [[a|e] c']. Qed.

Lemma wp_try_except (body : M A) handler c Q :
  wp body c (λ r c', match r with
                     | Ok a => Q (Ok a) c'
                     | Raise e => wp (handler e) c' Q
                     end) →
  wp (try_except body handler) c Q.
Proof. unfold wp, try_except. by destruct (body c) as [[a|e] c']. Qed.

Lemma wp_try_finally (body : M A) cleanup c Q :
  wp body c (λ r c', Q r (cleanup c')) →
  wp (try_finally body cleanup) c Q.
Proof. unfold wp, try_finally. by destruct (body c) as [r c']. Qed.

Lemma wp_reply ok (m : M A) c (P : DB * Reply → Prop) :
  wp m c (λ r c', P (reply_of ok (r, c'))) → P (reply_of ok (m c)).
Proof. done. Qed.
End wp_rules.

Section wp_storage.
Variables (d : DB) (t : option DB) (fs : list bool) (s : list Flash).

Local Abbreviation conn :=
  {| disk := d; txn := t; faults := fs; session := s |}.

(** A storage call goes through or fails; either way only the schedule
    of faults moves on. *)
Lemma wp_storage_call Q :
  (∀ fs', Q (Ok ()) {| disk := d; txn := t; faults := fs'; session := s |}) →
  (∀ fs', Q (Raise OperationalError)
            {| disk := d; txn := t; faults := fs'; session := s |}) →
  wp storage_call conn Q.
Proof.
  intros Hok Hfail. unfold wp, storage_call; simpl.
  destruct fs as [|[] rest]; simpl; auto.
Qed.

(** With no fault left, it goes through. *)
Lemma wp_storage_call_nil Q :
  Q (Ok ()) {| disk := d; txn := t; faults := []; session := s |} →
  wp storage_call {| disk := d; txn := t; faults := []; session := s |} Q.
Proof. done. Qed.

Lemma wp_flash f Q :
  Q (Ok ()) {| disk := d; txn := t; faults := fs; session := s ++ [f] |} →
  wp (flash f) conn Q.
Proof. done. Qed.

Lemma wp_bind_int n Q :
  (sqlite_integer n = true → Q (Ok ()) conn) →
  (sqlite_integer n = false → Q (Raise OverflowError) conn) →
  wp (bind_int n) conn Q.
Proof.
  intros Hok Hfail. unfold bind_int.
  destruct (sqlite_integer n); [apply wp_ret | apply wp_raise]; auto.
Qed.

Lemma wp_step {A} (f : Conn → Res A * Conn) Q :
  Q (f conn).1 (f conn).2 → wp (step f) conn Q.
Proof. done. Qed.
End wp_storage.

Ltac wp_step :=
  lazymatch goal with
  | |- wp (try_finally _ _) _ _ => apply wp_try_finally
  | |- wp (try_except _ _) _ _ => apply wp_try_except
  | |- wp (_ ≫= _) _ _ => apply wp_bind
  | |- wp (flash _) _ _ => apply wp_flash
  | |- wp (step _) _ _ => apply wp_step
  | |- wp storage_call _ _ =>
      first [ apply wp_storage_call_nil | apply wp_storage_call; intros ? ]
  | |- wp (bind_int _) _ _ => apply wp_bind_int; intros ?
  | |- wp (raise _) _ _ => apply wp_raise
  | |- wp (mret _) _ _ => apply wp_ret
  end.

Ltac wp_run :=
  repeat first
    [ wp_step
    | progress cbn [fst snd disk txn faults session with_txn view close
                    from_option id reply_of flashed response] ].

Ltac unfold_statements :=
  unfold sale_transaction, begin_transaction, select, execute, commit,
    rollback, connect.

(* ===================================================================== *)
(** ** [process_sale] *)
(* ===================================================================== *)

Lemma alter_present {A} (f : A → A) (t : gmap Z A) k x :
  t !! k = Some x → alter f k t = <[k := f x]> t.
Proof.
  intros Hk. apply map_eq. intros j. destruct (decide (k = j)) as [->|Hne].
  - by rewrite lookup_alter_eq, lookup_insert_eq, Hk.
  - by rewrite lookup_alter_ne, lookup_insert_ne.
Qed.

Section sale_proofs.
Variable py_int : string → option Z.
Variable sqlite_numeric : string → option Z.

Local Abbreviation process_sale' := (process_sale py_int sqlite_numeric).
Local Abbreviation quantity_of := (form_quantity py_int).
Local Abbreviation key_of := (form_product_key sqlite_numeric).

Lemma process_sale_unparsed form now schedule db :
  quantity_of form = None →
  process_sale' form now schedule db
  = (db, {| flashed := [InvalidQuantity]; response := Redirect Index |}).
Proof. intros H. unfold process_sale. by rewrite H. Qed.

Lemma process_sale_not_positive form now schedule db q :
  quantity_of form = Some q → q ≤ 0 →
  process_sale' form now schedule db
  = (db, {| flashed := [QuantityNotPositive]; response := Redirect Index |}).
Proof.
  intros H Hq. unfold process_sale. rewrite H.
  by apply Z.leb_le in Hq as ->.
Qed.

(** Whatever the storage does, a request leaves the database as it was
    and shows no message of success, or it is a sale. *)
Lemma process_sale_outcome form now schedule db :
  ((process_sale' form now schedule db).1 = db
   ∧ reported_success (process_sale' form now schedule db).2 = false)
  ∨ ∃ q k p,
      quantity_of form = Some q ∧ 0 < q ∧ key_of form = Some k
      ∧ products db !! k = Some p ∧ q ≤ stock p
      ∧ process_sale' form now schedule db
        = (insert_sale {| product_id := k; quantity := q; sale_date := now |}
             (update_stock (stock p - q) k db),
           {| flashed := [SaleProcessed q]; response := Redirect Index |}).
Proof.
  unfold process_sale.
  destruct (quantity_of form) as [q|] eqn:Hq; [|by left].
  destruct (q <=? 0) eqn:Hpos; [by left|]. apply Z.leb_gt in Hpos.
  pattern (reply_of (Redirect Index)
    (try_finally
       (try_except (sale_transaction (key_of form) q now)
          (λ e : Exn, rollback;; flash (SaleError e)))
       close (connect schedule db))).
  apply wp_reply. unfold_statements.
  destruct (key_of form) as [k|] eqn:Hk;
    [destruct (products db !! k) as [p|] eqn:Hp|].
  - wp_run; try by left.
    all: cbn [mbind option_bind]; rewrite Hp;
      cbn [fmap option_fmap option_map].
    all: destruct (stock p <? q) eqn:Hlt; wp_run; try by left.
    right. exists q, k, p. apply Z.ltb_ge in Hlt. done.
  - wp_run; try by left.
    all: cbn [mbind option_bind]; rewrite Hp;
      cbn [fmap option_fmap option_map]; wp_run; by left.
  - wp_run; try by left.
    all: cbn [mbind option_bind]; wp_run; by left.
Qed.

Lemma process_sale_not_found form now db q :
  quantity_of form = Some q → 0 < q →
  key_of form ≫= (products db !!.) = None →
  process_sale' form now [] db
  = (db, {| flashed := [ProductNotFound]; response := Redirect Index |}).
Proof.
  intros Hq Hpos Hnone. unfold process_sale. rewrite Hq.
  apply Z.leb_gt in Hpos as ->.
  pattern (reply_of (Redirect Index)
    (try_finally
       (try_except (sale_transaction (key_of form) q now)
          (λ e : Exn, rollback;; flash (SaleError e)))
       close (connect [] db))).
  apply wp_reply. unfold_statements. wp_run.
  replace (key_of form ≫= λ k, stock <$> products db !! k)
    with (@None Z).
  - by wp_run.
  - destruct (key_of form) as [k|]; [|done]. simpl in *. by rewrite Hnone.
Qed.

Lemma process_sale_insufficient form now db q k p :
  quantity_of form = Some q → 0 < q →
  key_of form = Some k → products db !! k = Some p → stock p < q →
  process_sale' form now [] db
  = (db, {| flashed := [InsufficientStock (stock p)];
            response := Redirect Index |}).
Proof.
  intros Hq Hpos Hk Hp Hlt. unfold process_sale. rewrite Hq.
  apply Z.leb_gt in Hpos as ->.
  pattern (reply_of (Redirect Index)
    (try_finally
       (try_except (sale_transaction (key_of form) q now)
          (λ e : Exn, rollback;; flash (SaleError e)))
       close (connect [] db))).
  apply wp_reply. unfold_statements. rewrite Hk. wp_run.
  cbn [mbind option_bind]. rewrite Hp. cbn [fmap option_fmap option_map].
  apply Z.ltb_lt in Hlt as ->. by wp_run.
Qed.

Lemma process_sale_sold form now db q k p :
  quantity_of form = Some q → 0 < q →
  key_of form = Some k → products db !! k = Some p → q ≤ stock p →
  sqlite_integer (stock p) = true →
  process_sale' form now [] db
  = (insert_sale {| product_id := k; quantity := q; sale_date := now |}
       (update_stock (stock p - q) k db),
     {| flashed := [SaleProcessed q]; response := Redirect Index |}).
Proof.
  intros Hq Hpos Hk Hp Hle Hfit.
  assert (sqlite_integer (stock p - q) = true ∧ sqlite_integer q = true)
    as [Hnew Hqty].
  { unfold sqlite_integer in *. lia. }
  unfold process_sale. rewrite Hq.
  assert ((q <=? 0) = false) as -> by lia.
  pattern (reply_of (Redirect Index)
    (try_finally
       (try_except (sale_transaction (key_of form) q now)
          (λ e : Exn, rollback;; flash (SaleError e)))
       close (connect [] db))).
  apply wp_reply. unfold_statements. rewrite Hk. wp_run.
  cbn [mbind option_bind]. rewrite Hp. cbn [fmap option_fmap option_map].
  apply Z.ltb_ge in Hle as ->. wp_run; first [done | congruence].
Qed.
End sale_proofs.

Section sale_claims.
Variable py_int : string → option Z.
Variable sqlite_numeric : string → option Z.

Local Abbreviation process_sale' := (process_sale py_int sqlite_numeric).
Local Abbreviation quantity_of := (form_quantity py_int).
Local Abbreviation key_of := (form_product_key sqlite_numeric).

Lemma process_sale_stocks_nonneg form now schedule db :
  stocks_nonneg db → stocks_nonneg (process_sale' form now schedule db).1.
Proof.
  intros Hdb.
  destruct (process_sale_outcome py_int sqlite_numeric form now schedule db)
    as [[-> _]|(q & k & p & _ & _ & _ & Hp & Hle & ->)]; [done|].
  unfold stocks_nonneg; simpl. rewrite (alter_present _ _ _ _ Hp).
  apply map_Forall_insert_2; [simpl; lia | done].
Qed.

Lemma run_sales_stocks_nonneg reqs db :
  stocks_nonneg db → stocks_nonneg (run_sales py_int sqlite_numeric reqs db).
Proof.
  revert db. induction reqs as [|r reqs IH]; intros db Hdb; [done|].
  simpl. apply IH. by apply process_sale_stocks_nonneg.
Qed.

(** C1. Stock non-negativity: from a database whose stocks are not
    negative, no sequence of sale requests, whatever the storage does
    during them, makes a stock negative; and a sale of more units than the
    product's current stock leaves the database as it was, reports no
    success, and, when the storage does not fail, is answered with the
    insufficient-stock message carrying the current stock. *)
Theorem stock_never_negative db :
  stocks_nonneg db →
  (∀ reqs, stocks_nonneg (run_sales py_int sqlite_numeric reqs db))
  ∧ (∀ form now schedule q k p,
       quantity_of form = Some q → key_of form = Some k →
       products db !! k = Some p → stock p < q →
       (process_sale' form now schedule db).1 = db
       ∧ reported_success (process_sale' form now schedule db).2 = false
       ∧ process_sale' form now [] db
         = (db, {| flashed := [InsufficientStock (stock p)];
                   response := Redirect Index |})).
Proof.
  intros Hdb. split; [intros reqs; by apply run_sales_stocks_nonneg|].
  intros form now schedule q k p Hq Hk Hp Hlt.
  assert (0 < q) as Hpos by (specialize (Hdb k p Hp); simpl in Hdb; lia).
  destruct (process_sale_outcome py_int sqlite_numeric form now schedule db)
    as [[H1 H2]|(q' & k' & p' & Hq' & _ & Hk' & Hp' & Hle & _)].
  - split_and!; [done..|]. by eapply process_sale_insufficient.
  - simplify_eq. lia.
Qed.

(** C2. Sale atomicity: when a request reports success, the table of
    sales has exactly one row more, holding the requested product id and
    quantity, the stock of that product is lower by exactly that quantity
    and no other product changed; when it does not, also after a failure
    of the storage at any point, the database is as it was. *)
Theorem sale_atomicity form now schedule db :
  let r := process_sale' form now schedule db in
  if reported_success r.2 then
    ∃ q k p,
      quantity_of form = Some q ∧ key_of form = Some k
      ∧ products db !! k = Some p
      ∧ sales db !! next_rowid (sales db) = None
      ∧ sales r.1
        = <[next_rowid (sales db) :=
              {| product_id := k; quantity := q; sale_date := now |}]>
            (sales db)
      ∧ size (sales r.1) = S (size (sales db))
      ∧ products r.1 = <[k := set_stock (stock p - q) p]> (products db)
  else r.1 = db.
Proof.
  cbv zeta.
  destruct (process_sale_outcome py_int sqlite_numeric form now schedule db)
    as [[H1 H2]|(q & k & p & Hq & _ & Hk & Hp & Hle & ->)].
  - by rewrite H2.
  - cbn. exists q, k, p. split_and!; try done.
    + apply next_rowid_fresh.
    + apply map_size_insert_None, next_rowid_fresh.
    + by apply alter_present.
Qed.

(** C4. Input errors of a sale: a quantity that is missing or does not
    parse, or that parses to an integer that is not positive, is answered
    with the quantity message; with a valid quantity, a product id that
    selects no row is answered with the not-found message when the storage
    does not fail. The database is unchanged in all these cases, whatever
    the storage does. *)
Theorem sale_input_errors form now schedule db :
  (quantity_of form = None →
   process_sale' form now schedule db
   = (db, {| flashed := [InvalidQuantity]; response := Redirect Index |}))
  ∧ (∀ q, quantity_of form = Some q → q ≤ 0 →
       process_sale' form now schedule db
       = (db, {| flashed := [QuantityNotPositive];
                 response := Redirect Index |}))
  ∧ (∀ q, quantity_of form = Some q → 0 < q →
       key_of form ≫= (products db !!.) = None →
       (process_sale' form now schedule db).1 = db
       ∧ reported_success (process_sale' form now schedule db).2 = false
       ∧ process_sale' form now [] db
         = (db, {| flashed := [ProductNotFound];
                   response := Redirect Index |})).
Proof.
  split_and!.
  - apply process_sale_unparsed.
  - apply process_sale_not_positive.
  - intros q Hq Hpos Hnone.
    destruct (process_sale_outcome py_int sqlite_numeric form now schedule db)
      as [[H1 H2]|(q' & k' & p' & _ & _ & Hk' & Hp' & _)].
    + split_and!; [done..|]. by eapply process_sale_not_found.
    + rewrite Hk' in Hnone. simpl in Hnone. congruence.
Qed.
End sale_claims.

Lemma stock_never_negative_witness :
  stocks_nonneg
    (run_sales decimal_literal decimal_literal
       [ {| sr_form := sale_form "1" "4"; sr_now := "2024-01-01 10:00:00";
            sr_schedule := [] |};
         {| sr_form := sale_form "1" "10"; sr_now := "2024-01-01 10:05:00";
            sr_schedule := [false; true] |} ]
       widget_db)
  ∧ process_sale decimal_literal decimal_literal (sale_form "1" "11")
      "2024-01-01 10:00:00" [] widget_db
    = (widget_db, {| flashed := [InsufficientStock 10];
                     response := Redirect Index |}).
Proof.
  assert (stocks_nonneg widget_db) as Hdb.
  { apply map_Forall_singleton. simpl. lia. }
  destruct (stock_never_negative decimal_literal decimal_literal widget_db Hdb)
    as [Hseq Hone].
  split; [apply Hseq|].
  apply (Hone (sale_form "1" "11") "2024-01-01 10:00:00" [] 11 1 widget);
    [reflexivity | reflexivity | reflexivity | simpl; lia].
Defined.

Lemma sale_input_errors_witness :
  process_sale decimal_literal decimal_literal (sale_form "1" "four")
    "2024-01-01 10:00:00" [] widget_db
  = (widget_db, {| flashed := [InvalidQuantity]; response := Redirect Index |})
  ∧ process_sale decimal_literal decimal_literal (sale_form "1" "0")
      "2024-01-01 10:00:00" [] widget_db
    = (widget_db, {| flashed := [QuantityNotPositive];
                     response := Redirect Index |})
  ∧ process_sale decimal_literal decimal_literal (sale_form "7" "4")
      "2024-01-01 10:00:00" [] widget_db
    = (widget_db, {| flashed := [ProductNotFound];
                     response := Redirect Index |}).
Proof.
  split_and!.
  - apply (sale_input_errors decimal_literal decimal_literal). reflexivity.
  - apply (sale_input_errors decimal_literal decimal_literal
             (sale_form "1" "0") _ [] widget_db) with (q := 0);
      [reflexivity | lia].
  - apply (sale_input_errors decimal_literal decimal_literal
             (sale_form "7" "4") "2024-01-01 10:00:00" [] widget_db)
      with (q := 4); [reflexivity | lia | reflexivity].
Defined.

(* ===================================================================== *)
(** ** [delete_product] and [toggle_watchlist] *)
(* ===================================================================== *)

Lemma set_is_watched_same p : set_is_watched (is_watched p) p = p.
Proof. by destruct p. Qed.

Lemma set_is_watched_twice a b p :
  set_is_watched a (set_is_watched b p) = set_is_watched a p.
Proof. done. Qed.

Lemma toggle_watchlist_found id db p :
  sqlite_integer id = true → products db !! id = Some p →
  toggle_watchlist id db
  = (set_products
       (<[id := set_is_watched (if is_watched p =? 0 then 1 else 0) p]>
          (products db)) db,
     {| flashed := [];
        response := JsonUpdated (if is_watched p =? 0 then 1 else 0) |}).
Proof.
  intros Hid Hp. unfold toggle_watchlist, update_is_watched.
  rewrite Hid, Hp. by rewrite (alter_present _ _ _ _ Hp).
Qed.

(** C6, as amended. Toggle round-trip. On an existing product, stored
    under an id that SQLite can hold as an [INTEGER] and with a flag of 0
    or 1, one toggle writes the other value and returns the value it
    wrote, and a second toggle gives back the database of the start. When
    no product has the id the database is unchanged, and the answer is the
    not-found failure if the id fits 64 bits and the general failure of
    the handler, with the driver's [OverflowError], if it does not. *)
Theorem toggle_round_trip id db :
  (∀ p, products db !! id = Some p → sqlite_integer id = true →
     flag_boolean p →
     let r := toggle_watchlist id db in
     response r.2 = JsonUpdated (1 - is_watched p)
     ∧ is_watched <$> products r.1 !! id = Some (1 - is_watched p)
     ∧ (toggle_watchlist id r.1).1 = db)
  ∧ (products db !! id = None →
     toggle_watchlist id db
     = (db, {| flashed := [];
               response := if sqlite_integer id then JsonNotFound
                           else JsonError OverflowError |})).
Proof.
  split.
  - intros p Hp Hid Hflag. cbv zeta.
    rewrite (toggle_watchlist_found id db p Hid Hp).
    assert ((if is_watched p =? 0 then 1 else 0) = 1 - is_watched p) as ->.
    { destruct Hflag as [-> | ->]; reflexivity. }
    cbn [fst snd response]. split_and!; [done| |].
    + simpl. by rewrite lookup_insert_eq.
    + erewrite toggle_watchlist_found; [|done|by apply lookup_insert_eq].
      cbn [fst products set_products is_watched set_is_watched].
      rewrite insert_insert_eq.
      assert ((if 1 - is_watched p =? 0 then 1 else 0) = is_watched p) as ->.
      { destruct Hflag as [-> | ->]; reflexivity. }
      rewrite set_is_watched_twice, set_is_watched_same.
      rewrite insert_id by done. by destruct db.
  - intros Hnone. unfold toggle_watchlist.
    destruct (sqlite_integer id); [by rewrite Hnone|done].
Qed.

Lemma toggle_round_trip_witness :
  (let r := toggle_watchlist 1 widget_db in
   response r.2 = JsonUpdated (1 - is_watched widget)
   ∧ is_watched <$> products r.1 !! 1 = Some (1 - is_watched widget)
   ∧ (toggle_watchlist 1 r.1).1 = widget_db)
  ∧ toggle_watchlist 2 widget_db
    = (widget_db, {| flashed := []; response := JsonNotFound |}).
Proof.
  split.
  - apply (toggle_round_trip 1 widget_db); [reflexivity | reflexivity |].
    left. reflexivity.
  - apply (toggle_round_trip 2 widget_db). reflexivity.
Defined.

(** C6, as stated, fails at the id 2^63, which the route passes on and no
    product has: the driver cannot bind it, and the toggle is answered with
    the general failure of the handler, not with the not-found failure. *)
Lemma toggle_absent_counterexample :
  products widget_db !! 9223372036854775808 = None
  ∧ toggle_watchlist 9223372036854775808 widget_db
    = (widget_db, {| flashed := []; response := JsonError OverflowError |})
  ∧ response (toggle_watchlist 9223372036854775808 widget_db).2
    ≠ JsonNotFound.
Proof. split_and!; [reflexivity..|]. vm_compute. discriminate. Qed.

(** C10. Frame of a successful toggle: the value written is 0 or 1; the
    targeted product differs from what it was in [is_watched] only; every
    other product and the whole table of sales are as they were. *)
Theorem toggle_frame id db v :
  response (toggle_watchlist id db).2 = JsonUpdated v →
  (v = 0 ∨ v = 1)
  ∧ (∃ p, products db !! id = Some p
          ∧ products (toggle_watchlist id db).1 !! id
            = Some {| name := name p; price := price p; stock := stock p;
                      low_stock_threshold := low_stock_threshold p;
                      image_url := image_url p; is_watched := v |})
  ∧ (∀ j, j ≠ id →
       products (toggle_watchlist id db).1 !! j = products db !! j)
  ∧ sales (toggle_watchlist id db).1 = sales db.
Proof.
  unfold toggle_watchlist.
  destruct (sqlite_integer id); [|done].
  destruct (products db !! id) as [p|] eqn:Hp; [|done].
  cbn [fst snd response]. intros [= <-]. split_and!.
  - destruct (is_watched p =? 0); auto.
  - exists p. split; [done|]. simpl. by rewrite lookup_alter_eq, Hp.
  - intros j Hj. simpl. by rewrite lookup_alter_ne.
  - done.
Qed.

Lemma toggle_frame_witness :
  (1 = 0 ∨ 1 = 1)
  ∧ (∃ p, products widget_db !! 1 = Some p
          ∧ products (toggle_watchlist 1 widget_db).1 !! 1
            = Some {| name := name p; price := price p; stock := stock p;
                      low_stock_threshold := low_stock_threshold p;
                      image_url := image_url p; is_watched := 1 |})
  ∧ (∀ j, j ≠ 1 →
       products (toggle_watchlist 1 widget_db).1 !! j
       = products widget_db !! j)
  ∧ sales (toggle_watchlist 1 widget_db).1 = sales widget_db.
Proof. apply (toggle_frame 1 widget_db 1). reflexivity. Defined.

(** C7, as amended. Deleting a product. For every id, every other
    product and every row of sales, also those that refer to the deleted
    product, are unchanged. For an id that SQLite can hold as an
    [INTEGER], the request succeeds whether or not the product exists, the
    product is gone afterwards, deleting an absent product changes nothing,
    and a second deletion changes nothing either. For any other id the
    driver's [OverflowError] ends the request, uncaught, and nothing is
    changed. *)
Theorem delete_product_frame id db :
  (∀ j, j ≠ id →
     products (delete_product id db).1 !! j = products db !! j)
  ∧ sales (delete_product id db).1 = sales db
  ∧ (sqlite_integer id = true →
     (delete_product id db).2
     = {| flashed := [ProductDeleted]; response := Redirect Index |}
     ∧ products (delete_product id db).1 !! id = None
     ∧ (products db !! id = None → (delete_product id db).1 = db)
     ∧ (delete_product id (delete_product id db).1).1
       = (delete_product id db).1)
  ∧ (sqlite_integer id = false →
     delete_product id db
     = (db, {| flashed := []; response := Uncaught OverflowError |})).
Proof.
  unfold delete_product. destruct (sqlite_integer id); cbn [fst snd].
  - split_and!.
    + intros j Hj. simpl. by apply lookup_delete_ne.
    + done.
    + intros _. split_and!.
      * done.
      * simpl. apply lookup_delete_eq.
      * intros Hnone. unfold delete_from_products.
        rewrite delete_id by done. apply set_products_id.
      * unfold delete_from_products, set_products. simpl.
        f_equal. apply delete_id, lookup_delete_eq.
    + done.
  - done.
Qed.

Lemma delete_product_frame_witness :
  (delete_product 1 widget_db).2
  = {| flashed := [ProductDeleted]; response := Redirect Index |}
  ∧ products (delete_product 1 widget_db).1 !! 1 = None
  ∧ (products widget_db !! 1 = None → (delete_product 1 widget_db).1 = widget_db)
  ∧ (delete_product 1 (delete_product 1 widget_db).1).1
    = (delete_product 1 widget_db).1.
Proof. apply (delete_product_frame 1 widget_db). reflexivity. Defined.

(** C7, as stated, fails at the id 2^63, which the route passes on and no
    product has: the driver cannot bind it, nothing catches its
    [OverflowError], and the deletion does not succeed. *)
Lemma delete_absent_counterexample :
  products widget_db !! 9223372036854775808 = None
  ∧ delete_product 9223372036854775808 widget_db
    = (widget_db, {| flashed := []; response := Uncaught OverflowError |})
  ∧ (delete_product 9223372036854775808 widget_db).2
    ≠ {| flashed := [ProductDeleted]; response := Redirect Index |}.
Proof. split_and!; [reflexivity..|]. vm_compute. discriminate. Qed.

(** An id that does not fit 64 bits is refused by the driver before any
    statement runs. *)
Lemma delete_product_unbindable id db :
  sqlite_integer id = false →
  delete_product id db
  = (db, {| flashed := []; response := Uncaught OverflowError |}).
Proof. intros H. unfold delete_product. by rewrite H. Qed.

Lemma toggle_watchlist_unbindable id db :
  sqlite_integer id = false →
  toggle_watchlist id db
  = (db, {| flashed := []; response := JsonError OverflowError |}).
Proof. intros H. unfold toggle_watchlist. by rewrite H. Qed.

(* ===================================================================== *)
(** ** The revenue *)
(* ===================================================================== *)

Lemma or_zero_sum l : (or_zero (sql_sum l) == foldr Qplus 0 l)%Q.
Proof.
  destruct l as [|x l]; [reflexivity|].
  unfold sql_sum, or_zero.
  destruct (Qeq_bool (foldr Qplus 0%Q (x :: l)) 0) eqn:E; [|reflexivity].
  apply Qeq_bool_iff in E. by rewrite E.
Qed.

Lemma join_sum db (l : list Sale) :
  (foldr Qplus 0
     ((λ sp, inject_Z (quantity sp.1) * price sp.2)
        <$> omap (λ s, p ← products db !! product_id s; Some (s, p)) l)
   == foldr Qplus 0 (sale_revenue db <$> l))%Q.
Proof.
  induction l as [|s l IH]; [reflexivity|].
  cbn [omap list_omap fmap list_fmap foldr]. unfold sale_revenue at 1.
  destruct (products db !! product_id s) as [p|]; simpl.
  - by rewrite IH.
  - rewrite IH. by rewrite Qplus_0_l.
Qed.

(** C3, as amended. The revenue is the sum over the rows of sales of what
    each adds: its quantity times the current price of its product when
    that product exists, and nothing when it does not. *)
Theorem total_revenue_joined db :
  (total_revenue db == foldr Qplus 0 (sale_revenue db <$> rows (sales db)))%Q.
Proof.
  unfold total_revenue, sales_join_products.
  rewrite or_zero_sum. apply join_sum.
Qed.

(** When every sale still has its product, this is the sum that the
    specification words. *)
Lemma spec_total_revenue_defined db r :
  spec_total_revenue db = Some r → (total_revenue db == r)%Q.
Proof.
  unfold total_revenue, sales_join_products, spec_total_revenue.
  rewrite or_zero_sum, join_sum.
  generalize (rows (sales db)). intros l. revert r.
  induction l as [|s l IH]; intros r; simpl.
  - by intros [= <-].
  - unfold sale_revenue at 1.
    destruct (products db !! product_id s) as [p|]; [|done]. simpl.
    destruct (foldr _ _ l) as [rest|]; [|done]. simpl.
    intros [= <-]. by rewrite (IH rest).
Qed.

(** C3, as stated, fails on the database left by one sale of four units
    of a product that is then deleted: the row of the sale has no product,
    so there is no sum of the kind the claim describes, and the program
    reports a revenue of zero. *)
Lemma total_revenue_orphan_counterexample :
  rows (sales orphan_db)
  = [ {| product_id := 1; quantity := 4;
         sale_date := "2024-01-01 10:00:00" |} ]
  ∧ products orphan_db !! 1 = None
  ∧ total_revenue orphan_db = 0%Q
  ∧ ¬ ∃ r, spec_total_revenue orphan_db = Some r
           ∧ (total_revenue orphan_db == r)%Q.
Proof.
  split_and!; [reflexivity..|].
  intros (r & Hr & _). vm_compute in Hr. discriminate.
Qed.

(* ===================================================================== *)
(** ** [add_product] *)
(* ===================================================================== *)

Section add_product_claims.
Variable py_int : string → option Z.
Variable py_float : string → option Q.
Variable secure_filename : string → string.

Local Abbreviation add_product' :=
  (add_product py_int py_float secure_filename).
Local Abbreviation accepted := (fields_accepted py_int py_float).

Lemma image_upload_accepted req n price stock url w :
  accepted req n price stock →
  image_upload secure_filename req url w
  = Some ({| database := database w;
             static := static_after secure_filename req w |},
          match files req !! "image_file" with
          | Some file =>
              if bool_decide (filename file = "") then url
              else secure_filename (filename file)
          | None => url
          end).
Proof.
  intros Hacc. unfold image_upload, static_after.
  destruct (files req !! "image_file") as [file|] eqn:Hfile;
    [|by destruct w].
  destruct (fa_file _ _ _ _ _ _ Hacc file Hfile) as [Hname|Hallowed].
  - rewrite Hname. simpl. by destruct w.
  - rewrite Hallowed. case_bool_decide; simpl; [by destruct w|done].
Qed.

Lemma fields_invalid_accepted req n price stock threshold :
  accepted req n price stock → 0 < threshold →
  fields_invalid (Some n) price stock threshold = false.
Proof.
  intros Hacc Hthr. unfold fields_invalid.
  rewrite bool_decide_eq_false_2 by apply (fa_name_filled _ _ _ _ _ _ Hacc).
  assert (Qle_bool price 0 = false) as ->.
  { apply not_true_is_false. rewrite Qle_bool_iff.
    apply Qlt_not_le, (fa_price_positive _ _ _ _ _ _ Hacc). }
  pose proof (fa_stock_range _ _ _ _ _ _ Hacc).
  assert ((stock <? 0) = false) as -> by lia.
  assert ((threshold <=? 0) = false) as -> by lia. done.
Qed.

(** What [add_product] does with a request that reaches the [INSERT]. *)
Lemma add_product_accepted req w n price stock threshold :
  accepted req n price stock →
  form_number py_int 1 (form req !! "threshold") = Some threshold →
  0 < threshold < 2 ^ 63 →
  add_product' req w
  = match insert_product
            {| name := n; price := price; stock := stock;
               low_stock_threshold := threshold;
               image_url := stored_image secure_filename req;
               is_watched := 0 |} (database w) with
    | inr db' =>
        ({| database := db'; static := static_after secure_filename req w |},
         {| flashed := [ProductAdded n]; response := Redirect Index |})
    | inl _ =>
        ({| database := database w;
            static := static_after secure_filename req w |},
         {| flashed := [NameExists n];
            response := RenderTemplate AddProduct |})
    end.
Proof.
  intros Hacc Hparse Hthr. unfold add_product.
  rewrite (fa_method _ _ _ _ _ _ Hacc), (fa_price _ _ _ _ _ _ Hacc),
    (fa_stock _ _ _ _ _ _ Hacc), Hparse, (fa_name _ _ _ _ _ _ Hacc).
  rewrite (image_upload_accepted req n price stock _ w Hacc).
  rewrite (fields_invalid_accepted req n price stock threshold Hacc)
    by lia.
  pose proof (fa_stock_range _ _ _ _ _ _ Hacc).
  assert (sqlite_integer stock && sqlite_integer threshold = true) as ->.
  { unfold sqlite_integer. lia. }
  cbn [negb default from_option id database static].
  fold (stored_image secure_filename req).
  by destruct (insert_product _ _).
Qed.

(** A request with a name that is taken adds no row, valid or not. *)
Lemma add_product_taken_no_row req w n i p :
  form req !! "name" = Some n →
  products (database w) !! i = Some p → name p = n →
  database (add_product' req w).1 = database w.
Proof.
  intros Hname Hi Hp. unfold add_product.
  destruct (method req); [done|].
  destruct (form_number py_float _ _) as [price|]; [|done].
  destruct (form_number py_int 0 _) as [stock|]; [|done].
  destruct (form_number py_int 1 _) as [threshold|]; [|done].
  assert (∀ url w1 u1,
            image_upload secure_filename req url w = Some (w1, u1) →
            database w1 = database w) as Hup.
  { intros url w1 u1. unfold image_upload.
    destruct (files req !! "image_file") as [file|]; [|by intros [= <- _]].
    repeat case_match; by intros [= <- _]. }
  destruct (image_upload _ _ _ _) as [[w1 u1]|] eqn:E; [|done].
  apply Hup in E.
  destruct (fields_invalid _ _ _ _); [done|].
  destruct (negb _); [done|].
  rewrite Hname. cbn [default from_option id].
  erewrite insert_product_taken; [done| |done]. by rewrite E.
Qed.

(** C5. Name uniqueness: a creation request that passes the checks of
    the form and carries the name of an existing product, compared byte
    by byte, is answered with the name-exists message, and the database
    is unchanged: no row is added. *)
Theorem duplicate_name_rejected req w n price stock threshold i p :
  accepted req n price stock →
  form_number py_int 1 (form req !! "threshold") = Some threshold →
  0 < threshold < 2 ^ 63 →
  products (database w) !! i = Some p → name p = n →
  (add_product' req w).2
  = {| flashed := [NameExists n]; response := RenderTemplate AddProduct |}
  ∧ database (add_product' req w).1 = database w.
Proof.
  intros Hacc Hparse Hthr Hi Hp.
  rewrite (add_product_accepted req w n price stock threshold) by done.
  erewrite insert_product_taken; [done|exact Hi|exact Hp].
Qed.

(** C8. Defaults of the numeric fields: a missing or empty threshold is
    read as 1, a missing price or stock as 0; so a request without a
    threshold, whose other fields pass the checks and whose name is free,
    succeeds and stores the product with a threshold of 1. *)
Theorem threshold_defaults_to_one req w n price stock :
  form req !! "threshold" = None ∨ form req !! "threshold" = Some "" →
  accepted req n price stock →
  name_taken n (products (database w)) = false →
  form_number py_int 1 (form req !! "threshold") = Some 1
  ∧ form_number py_float 0%Q None = Some 0%Q
  ∧ form_number py_int 0 None = Some 0
  ∧ add_product' req w
    = ({| database :=
            set_products
              (<[next_rowid (products (database w)) :=
                   {| name := n; price := price; stock := stock;
                      low_stock_threshold := 1;
                      image_url := stored_image secure_filename req;
                      is_watched := 0 |}]> (products (database w)))
              (database w);
          static := static_after secure_filename req w |},
       {| flashed := [ProductAdded n]; response := Redirect Index |}).
Proof.
  intros Hthr Hacc Hfree.
  assert (form_number py_int 1 (form req !! "threshold") = Some 1) as Hone.
  { destruct Hthr as [-> | ->]; reflexivity. }
  split_and!; [done..|].
  rewrite (add_product_accepted req w n price stock 1) by done.
  by rewrite insert_product_free.
Qed.

(** C9. The uploaded file comes before the URL: a request that passes
    the checks and has a free name stores, as image reference, the secured
    name of the uploaded file whenever a file with a name is uploaded
    (its extension is then an allowed one), whatever URL the form
    carries; the URL of the form is stored only when no file part is
    present or its file name is empty. *)
Theorem upload_before_url req w n price stock threshold :
  accepted req n price stock →
  form_number py_int 1 (form req !! "threshold") = Some threshold →
  0 < threshold < 2 ^ 63 →
  name_taken n (products (database w)) = false →
  (add_product' req w).2
  = {| flashed := [ProductAdded n]; response := Redirect Index |}
  ∧ products (database (add_product' req w).1)
    = <[next_rowid (products (database w)) :=
          {| name := n; price := price; stock := stock;
             low_stock_threshold := threshold;
             image_url :=
               match files req !! "image_file" with
               | Some file =>
                   if bool_decide (filename file = "")
                   then default "" (form req !! "image_url_online")
                   else secure_filename (filename file)
               | None => default "" (form req !! "image_url_online")
               end;
             is_watched := 0 |}]> (products (database w))
  ∧ (∀ file, files req !! "image_file" = Some file →
       filename file ≠ "" → allowed_file (filename file) = true).
Proof.
  intros Hacc Hparse Hthr Hfree.
  rewrite (add_product_accepted req w n price stock threshold) by done.
  rewrite insert_product_free by done. split_and!; [done..|].
  intros file Hfile Hne.
  by destruct (fa_file _ _ _ _ _ _ Hacc file Hfile).
Qed.

(** A file with a name and an extension that is not allowed: the
    request is refused and nothing is stored. *)
Lemma add_product_refused_file req w file price stock threshold :
  method req = POST →
  form_number py_float 0%Q (form req !! "price") = Some price →
  form_number py_int 0 (form req !! "stock") = Some stock →
  form_number py_int 1 (form req !! "threshold") = Some threshold →
  files req !! "image_file" = Some file →
  filename file ≠ "" → allowed_file (filename file) = false →
  add_product' req w
  = (w, {| flashed := [FileTypeNotAllowed];
           response := Redirect AddProduct |}).
Proof.
  intros Hm Hp Hs Ht Hfile Hne Hno. unfold add_product.
  rewrite Hm, Hp, Hs, Ht. unfold image_upload. rewrite Hfile, Hno.
  by rewrite bool_decide_eq_false_2.
Qed.
End add_product_claims.

Lemma widget_request_accepted :
  fields_accepted decimal_literal decimal_number widget_request "Widget" 2.00 10.
Proof.
  constructor; try reflexivity; [done | lia | done].
Defined.

Lemma gadget_request_accepted :
  fields_accepted decimal_literal decimal_number gadget_request "Gadget" 3.50 0.
Proof.
  constructor; try reflexivity; [done | lia | done].
Defined.

Lemma gadget_upload_request_accepted :
  fields_accepted decimal_literal decimal_number gadget_upload_request
    "Gadget" 3.50 0.
Proof.
  constructor; try reflexivity; [done | lia |].
  intros file Hfile. vm_compute in Hfile. injection Hfile as <-.
  right. reflexivity.
Defined.

Lemma duplicate_name_rejected_witness :
  (add_product decimal_literal decimal_number safe_filename
     widget_request widget_world).2
  = {| flashed := [NameExists "Widget"];
       response := RenderTemplate AddProduct |}
  ∧ database (add_product decimal_literal decimal_number safe_filename
                widget_request widget_world).1
    = database widget_world.
Proof.
  apply (duplicate_name_rejected decimal_literal decimal_number safe_filename
           widget_request widget_world "Widget" 2.00 10 5 1 widget).
  - exact widget_request_accepted.
  - reflexivity.
  - lia.
  - reflexivity.
  - reflexivity.
Defined.

Lemma threshold_defaults_to_one_witness :
  (add_product decimal_literal decimal_number safe_filename
     gadget_request widget_world).2
  = {| flashed := [ProductAdded "Gadget"]; response := Redirect Index |}
  ∧ low_stock_threshold
      <$> products
            (database (add_product decimal_literal decimal_number
                         safe_filename gadget_request widget_world).1) !! 2
    = Some 1.
Proof.
  destruct (threshold_defaults_to_one decimal_literal decimal_number
              safe_filename gadget_request widget_world "Gadget" 3.50 0)
    as (_ & _ & _ & ->).
  - left. reflexivity.
  - exact gadget_request_accepted.
  - reflexivity.
  - split; reflexivity.
Defined.

Lemma upload_before_url_witness :
  (add_product decimal_literal decimal_number safe_filename
     gadget_upload_request widget_world).2
  = {| flashed := [ProductAdded "Gadget"]; response := Redirect Index |}
  ∧ image_url
      <$> products
            (database (add_product decimal_literal decimal_number
                         safe_filename gadget_upload_request widget_world).1)
          !! 2
    = Some "gadget.PNG".
Proof.
  destruct (upload_before_url decimal_literal decimal_number safe_filename
              gadget_upload_request widget_world "Gadget" 3.50 0 2)
    as (-> & -> & _).
  - exact gadget_upload_request_accepted.
  - reflexivity.
  - lia.
  - reflexivity.
  - split; reflexivity.
Defined.

(* ===================================================================== *)
(** ** What every handler keeps *)
(* ===================================================================== *)

Lemma names_unique_same_names (t t' : gmap Z Product) :
  (∀ i, name <$> t' !! i = name <$> t !! i) →
  names_unique t → names_unique t'.
Proof.
  intros Hsame Hu i j p q Hi Hj Hpq.
  pose proof (Hsame i) as Hsi. pose proof (Hsame j) as Hsj.
  rewrite Hi in Hsi. rewrite Hj in Hsj. simpl in *.
  destruct (t !! i) as [p'|] eqn:Hi'; [|done].
  destruct (t !! j) as [q'|] eqn:Hj'; [|done].
  simpl in *. apply (Hu i j p' q' Hi' Hj'). congruence.
Qed.

Lemma names_unique_alter (f : Product → Product) k (t : gmap Z Product) :
  (∀ p, name (f p) = name p) →
  names_unique t → names_unique (alter f k t).
Proof.
  intros Hf. apply names_unique_same_names. intros i.
  destruct (decide (k = i)) as [->|Hne].
  - rewrite lookup_alter_eq. destruct (t !! i); simpl; by rewrite ?Hf.
  - by rewrite lookup_alter_ne.
Qed.

Lemma names_unique_delete k (t : gmap Z Product) :
  names_unique t → names_unique (delete k t).
Proof.
  intros Hu i j p q Hi Hj. apply lookup_delete_Some in Hi as [_ Hi].
  apply lookup_delete_Some in Hj as [_ Hj]. by apply Hu.
Qed.

Lemma names_unique_insert k p (t : gmap Z Product) :
  name_taken (name p) t = false →
  names_unique t → names_unique (<[k := p]> t).
Proof.
  intros Hfree Hu i j x y Hi Hj Hxy.
  assert (∀ l z, t !! l = Some z → name z ≠ name p) as Hother.
  { intros l z Hl Hz.
    assert (name_taken (name p) t = true) by (apply name_taken_spec; eauto).
    congruence. }
  apply lookup_insert_Some in Hi as [[<- <-]|[Hki Hi]];
    apply lookup_insert_Some in Hj as [[<- <-]|[Hkj Hj]].
  - done.
  - by destruct (Hother j y Hj).
  - by destruct (Hother i x Hi).
  - by apply (Hu i j x y).
Qed.

Lemma well_formed_empty : well_formed empty_db.
Proof.
  split_and!; [apply map_Forall_empty..|].
  intros i j p q Hi. simpl in Hi. by rewrite lookup_empty in Hi.
Qed.

Lemma well_formed_insert_product db db' p :
  well_formed db → flag_boolean p → 0 ≤ stock p →
  insert_product p db = inr db' → well_formed db'.
Proof.
  intros (Hf & Hs & Hu) Hp Hst. unfold insert_product.
  destruct (name_taken _ _) eqn:Hfree; [done|]. intros [= <-].
  split_and!; [by apply map_Forall_insert_2..|].
  by apply names_unique_insert.
Qed.

Lemma well_formed_init_db db : well_formed db → well_formed (init_db db).
Proof.
  intros Hdb. unfold init_db.
  destruct (insert_products initial_products db) as [e|db'] eqn:E; [done|].
  revert E. unfold initial_products. simpl.
  repeat (match goal with
          | |- context [insert_product ?p ?d] =>
              let H := fresh in
              destruct (insert_product p d) eqn:H; [done|];
              apply well_formed_insert_product in H;
              [|done|(by left) || (by right)|simpl; lia]
          end).
  by intros [= <-].
Qed.

Lemma well_formed_delete_product id db :
  well_formed db → well_formed (delete_product id db).1.
Proof.
  intros (Hf & Hs & Hu). unfold delete_product. case_match; [|done].
  split_and!; [by apply map_Forall_delete..|by apply names_unique_delete].
Qed.

Lemma well_formed_alter f k db p :
  well_formed db → products db !! k = Some p →
  flag_boolean (f p) → 0 ≤ stock (f p) → (∀ x, name (f x) = name x) →
  well_formed (set_products (alter f k (products db)) db).
Proof.
  intros (Hf & Hs & Hu) Hp Hflag Hstock Hname. split_and!.
  - unfold flags_boolean; simpl. rewrite (alter_present _ _ _ _ Hp).
    by apply map_Forall_insert_2.
  - unfold stocks_nonneg; simpl. rewrite (alter_present _ _ _ _ Hp).
    by apply map_Forall_insert_2.
  - by apply names_unique_alter.
Qed.

Lemma well_formed_toggle_watchlist id db :
  well_formed db → well_formed (toggle_watchlist id db).1.
Proof.
  intros Hdb. unfold toggle_watchlist. case_match; [|done].
  destruct (products db !! id) as [p|] eqn:Hp; [|done].
  cbn [fst]. destruct Hdb as (Hf & Hs & Hu).
  eapply well_formed_alter; [done..| |by apply (Hs id p)|done].
  unfold flag_boolean. simpl. case_match; auto.
Qed.

Lemma well_formed_process_sale py_int sqlite_numeric form now schedule db :
  well_formed db →
  well_formed (process_sale py_int sqlite_numeric form now schedule db).1.
Proof.
  intros Hdb.
  destruct (process_sale_outcome py_int sqlite_numeric form now schedule db)
    as [[-> _]|(q & k & p & _ & _ & _ & Hp & Hle & ->)]; [done|].
  cbn [fst]. destruct Hdb as (Hf & Hs & Hu).
  assert (well_formed (update_stock (stock p - q) k db)) as (? & ? & ?).
  { eapply well_formed_alter; [done..|by apply (Hf k p)|simpl; lia|done]. }
  done.
Qed.

Lemma well_formed_add_product py_int py_float secure_filename req w :
  well_formed (database w) →
  well_formed (database (add_product py_int py_float secure_filename req w).1).
Proof.
  intros Hdb. unfold add_product.
  destruct (method req); [done|].
  destruct (form_number py_float _ _) as [price|]; [|done].
  destruct (form_number py_int 0 _) as [stock|]; [|done].
  destruct (form_number py_int 1 _) as [threshold|]; [|done].
  assert (∀ url w1 u1,
            image_upload secure_filename req url w = Some (w1, u1) →
            database w1 = database w) as Hup.
  { intros url w1 u1. unfold image_upload.
    destruct (files req !! "image_file") as [file|]; [|by intros [= <- _]].
    repeat case_match; by intros [= <- _]. }
  destruct (image_upload _ _ _ _) as [[w1 u1]|] eqn:E; [|done].
  apply Hup in E.
  unfold flash_and, no_flash.
  destruct (fields_invalid _ _ _ _) eqn:Hvalid; [cbn [fst]; by rewrite E|].
  destruct (negb _); [cbn [fst]; by rewrite E|].
  destruct (insert_product _ _) as [e|db'] eqn:Hins;
    [cbn [fst]; by rewrite E|].
  cbn [fst database]. rewrite E in Hins.
  apply well_formed_insert_product in Hins; [done..|by left|].
  simpl. unfold fields_invalid in Hvalid.
  destruct (form req !! "name"); [|done].
  apply orb_false_elim in Hvalid as [Hvalid _].
  apply orb_false_elim in Hvalid as [_ Hstock]. lia.
Qed.

(** Every database the program produces is well formed; in particular the
    watch flag of every product is 0 or 1. *)
Lemma reachable_well_formed db : reachable db → well_formed db.
Proof.
  induction 1 as [|db _ IH|pi pf sf req files db _ IH|id db _ IH
                  |pi sn form now schedule db _ IH|id db _ IH].
  - apply well_formed_empty.
  - by apply well_formed_init_db.
  - by apply (well_formed_add_product pi pf sf req
                {| database := db; static := files |}).
  - by apply well_formed_delete_product.
  - by apply well_formed_process_sale.
  - by apply well_formed_toggle_watchlist.
Qed.

Lemma reachable_flag_boolean db id p :
  reachable db → products db !! id = Some p → flag_boolean p.
Proof.
  intros Hr Hp. destruct (reachable_well_formed db Hr) as (Hf & _).
  by apply (Hf id p).
Qed.

(* ===================================================================== *)
(** ** The scenario of the specification *)
(* ===================================================================== *)

Example widget_created :
  add_product decimal_literal decimal_number safe_filename widget_request
    {| database := empty_db; static := ∅ |}
  = ({| database :=
          {| products :=
               {[ 1 := {| name := "Widget"; price := 2.00; stock := 10;
                          low_stock_threshold := 5; image_url := "";
                          is_watched := 0 |} ]};
             sales := ∅ |};
        static := ∅ |},
     {| flashed := [ProductAdded "Widget"]; response := Redirect Index |}).
Proof. reflexivity. Qed.

Example widget_sold :
  process_sale decimal_literal decimal_literal (sale_form "1" "4")
    "2024-01-01 10:00:00" [] widget_db
  = ({| products := {[ 1 := set_stock 6 widget ]};
        sales := {[ 1 := {| product_id := 1; quantity := 4;
                            sale_date := "2024-01-01 10:00:00" |} ]} |},
     {| flashed := [SaleProcessed 4]; response := Redirect Index |}).
Proof. reflexivity. Qed.

Example widget_sale_refused :
  process_sale decimal_literal decimal_literal (sale_form "1" "10")
    "2024-01-01 10:05:00" []
    {| products := {[ 1 := set_stock 6 widget ]};
       sales := {[ 1 := {| product_id := 1; quantity := 4;
                           sale_date := "2024-01-01 10:00:00" |} ]} |}
  = ({| products := {[ 1 := set_stock 6 widget ]};
        sales := {[ 1 := {| product_id := 1; quantity := 4;
                            sale_date := "2024-01-01 10:00:00" |} ]} |},
     {| flashed := [InsufficientStock 6]; response := Redirect Index |}).
Proof. reflexivity. Qed.

(** A failure of the storage at the commit: nothing of the sale stays. *)
Example widget_sale_commit_fails :
  process_sale decimal_literal decimal_literal (sale_form "1" "4")
    "2024-01-01 10:00:00" [false; false; false; false; true] widget_db
  = (widget_db,
     {| flashed := [SaleError OperationalError];
        response := Redirect Index |}).
Proof. reflexivity. Qed.

Example widget_metrics :
  visualization
    (process_sale decimal_literal decimal_literal (sale_form "1" "4")
       "2024-01-01 10:00:00" [] widget_db).1
  = {| m_total_value := 12; m_total_orders := 1; m_total_revenue := 8 |}.
Proof. reflexivity. Qed.

Example widget_deleted_metrics :
  visualization orphan_db
  = {| m_total_value := 0; m_total_orders := 1; m_total_revenue := 0 |}.
Proof. reflexivity. Qed.

(* ===================================================================== *)
(** ** [allowed_file] *)
(* ===================================================================== *)

Lemma after_last_dot_no_dot s : has_dot s = false → after_last_dot s = None.
Proof.
  induction s as [|a s IH]; [done|]. simpl.
  intros [Ha Hs]%orb_false_elim. by rewrite IH, Ha.
Qed.

Lemma after_last_dot_app base ext :
  has_dot ext = false →
  after_last_dot (base +:+ "." +:+ ext) = Some ext.
Proof.
  intros Hext. induction base as [|a base IH]; simpl.
  - by rewrite after_last_dot_no_dot.
  - by rewrite IH.
Qed.

Lemma after_last_dot_split s ext :
  after_last_dot s = Some ext →
  ∃ base, s = base +:+ "." +:+ ext ∧ has_dot ext = false.
Proof.
  revert ext. induction s as [|a s IH]; intros ext; [done|]. simpl.
  destruct (after_last_dot s) as [e|] eqn:E.
  - intros [= <-]. destruct (IH e eq_refl) as (base & -> & Hno).
    by exists (String a base).
  - case_bool_decide as Ha; [|done]. intros [= <-]. subst a.
    exists EmptyString. split; [done|].
    destruct (has_dot s) eqn:Hs; [|done].
    clear IH. exfalso. revert E Hs. clear.
    induction s as [|b s IH]; [done|]. simpl.
    destruct (after_last_dot s); [done|].
    case_bool_decide; [done|]. simpl. auto.
Qed.

(** X1. [allowed_file] accepts a name exactly when it has a dot and the
    text after its last dot, lowered, is one of the four extensions; what
    stands before the last dot plays no part. *)
Theorem allowed_file_iff s :
  allowed_file s = true
  ↔ ∃ base ext, s = base +:+ "." +:+ ext ∧ has_dot ext = false
                ∧ lower ext ∈ ALLOWED_EXTENSIONS.
Proof.
  unfold allowed_file. split.
  - destruct (after_last_dot s) as [ext|] eqn:E; [|done].
    intros Hin%bool_decide_eq_true.
    destruct (after_last_dot_split s ext E) as (base & -> & Hno).
    by exists base, ext.
  - intros (base & ext & -> & Hno & Hin).
    rewrite after_last_dot_app by done. by apply bool_decide_eq_true.
Qed.

(* ===================================================================== *)
(** ** Rowids *)
(* ===================================================================== *)

Section rowid_more.
Context {A : Type}.
Implicit Types t : gmap Z A.

Lemma max_rowid_is_max t m :
  max_rowid t = Some m ↔
  is_Some (t !! m) ∧ ∀ k, is_Some (t !! k) → k ≤ m.
Proof.
  assert (∀ m, max_rowid t = Some m → is_Some (t !! m)) as Hin.
  { unfold max_rowid.
    apply (map_fold_weak_ind
             (λ r (t : gmap Z A), ∀ m, r = Some m → is_Some (t !! m))).
    - done.
    - intros i x t' r Hi IH m' [= <-].
      destruct r as [mx|]; simpl.
      + destruct (Z.max_spec i mx) as [[_ ->]|[_ ->]].
        * destruct (decide (i = mx)) as [->|Hne];
            [by rewrite lookup_insert_eq|].
          rewrite lookup_insert_ne by done. by apply IH.
        * by rewrite lookup_insert_eq.
      + by rewrite lookup_insert_eq. }
  split.
  - intros Hm. split; [by apply Hin|]. intros k Hk.
    destruct (max_rowid_bound t k Hk) as (m' & Hm' & Hle). congruence.
  - intros [Hm Hmax].
    destruct (max_rowid_bound t m Hm) as (m' & Hm' & Hle).
    rewrite Hm'. f_equal. specialize (Hmax m' (Hin m' Hm')). lia.
Qed.

Lemma next_rowid_empty : next_rowid (∅ : gmap Z A) = 1.
Proof. done. Qed.

(** After a row was inserted under the next rowid, the next rowid is one
    more. *)
Lemma next_rowid_insert t x :
  next_rowid (<[next_rowid t := x]> t) = next_rowid t + 1.
Proof.
  assert (max_rowid (<[next_rowid t := x]> t) = Some (next_rowid t)) as Hmax.
  { apply max_rowid_is_max. split; [by rewrite lookup_insert_eq|].
    intros k Hk. destruct (decide (next_rowid t = k)) as [<-|Hne]; [done|].
    rewrite lookup_insert_ne in Hk by done.
    destruct (max_rowid_bound t k Hk) as (m & Hm & Hle).
    unfold next_rowid. rewrite Hm. simpl. lia. }
  unfold next_rowid at 1. rewrite Hmax. simpl. lia.
Qed.
End rowid_more.

(* ===================================================================== *)
(** ** [init_db] *)
(* ===================================================================== *)

Lemma name_taken_insert_same k p (t : gmap Z Product) :
  name_taken (name p) (<[k := p]> t) = true.
Proof. apply name_taken_spec. exists k, p. by rewrite lookup_insert_eq. Qed.

Lemma name_taken_insert_mono n k p (t : gmap Z Product) :
  t !! k = None → name_taken n t = true → name_taken n (<[k := p]> t) = true.
Proof.
  intros Hk (i & q & Hi & Hq)%name_taken_spec. apply name_taken_spec.
  exists i, q. split; [|done]. rewrite lookup_insert_ne; [done|congruence].
Qed.

Lemma name_taken_insert_ne n k p (t : gmap Z Product) :
  name p ≠ n → name_taken n (<[k := p]> t) = true → name_taken n t = true.
Proof.
  intros Hne (i & q & Hi & Hq)%name_taken_spec. apply name_taken_spec.
  apply lookup_insert_Some in Hi as [[<- <-]|[_ Hi]]; [done|eauto].
Qed.

Lemma insert_products_taken l db :
  Exists (λ p, name_taken (name p) (products db) = true) l →
  insert_products l db = inl IntegrityError.
Proof.
  revert db. induction l as [|p l IH]; intros db Hex; [by inversion Hex|].
  simpl. unfold insert_product.
  destruct (name_taken (name p) (products db)) eqn:Hp; [done|].
  apply IH. inversion Hex as [?? Hhd|?? Htl]; subst; [congruence|].
  apply list.Exists_exists in Htl as (q & Hq & Ht).
  apply list.Exists_exists. exists q. split; [done|]. simpl.
  apply name_taken_insert_mono; [apply next_rowid_fresh|done].
Qed.

Lemma insert_products_free l db :
  NoDup (name <$> l) →
  Forall (λ p, name_taken (name p) (products db) = false) l →
  insert_products l db = inr (set_products (insert_all l (products db)) db).
Proof.
  revert db. induction l as [|p l IH]; intros db Hdup Hfree.
  - simpl. by rewrite set_products_id.
  - rewrite fmap_cons in Hdup. apply list.NoDup_cons in Hdup as [Hp Hdup].
    apply list.Forall_cons in Hfree as [Hfp Hfree].
    simpl. rewrite insert_product_free by done.
    rewrite IH; [reflexivity|done|].
    apply list.Forall_forall. intros q Hq. simpl.
    apply not_true_is_false. intros Htaken.
    apply name_taken_insert_ne in Htaken.
    + rewrite list.Forall_forall in Hfree. by rewrite (Hfree q Hq) in Htaken.
    + intros Heq. apply Hp. rewrite Heq. by apply list_elem_of_fmap_2.
Qed.

Lemma name_taken_insert_all p l (t : gmap Z Product) :
  p ∈ l → name_taken (name p) (insert_all l t) = true.
Proof.
  assert (∀ l t n, name_taken n t = true →
                   name_taken n (insert_all l t) = true) as Hmono.
  { clear. induction l as [|q l IH]; intros t n Hn; [done|]. simpl.
    apply IH, name_taken_insert_mono; [apply next_rowid_fresh|done]. }
  revert t. induction l as [|q l IH]; intros t Hin; [by inversion Hin|].
  apply elem_of_cons in Hin as [->|Hin]; simpl.
  - apply Hmono, name_taken_insert_same.
  - by apply IH.
Qed.

Lemma initial_names_distinct : NoDup (name <$> initial_products).
Proof. apply (bool_decide_unpack _). by vm_compute. Qed.

Lemma init_db_eq db :
  init_db db
  = if initial_name_taken db then db
    else set_products (insert_all initial_products (products db)) db.
Proof.
  unfold init_db, initial_name_taken.
  destruct (existsb _ _) eqn:E.
  - rewrite insert_products_taken; [done|].
    apply existsb_exists in E as (p & Hp & Ht).
    apply list.Exists_exists. exists p.
    split; [by apply list_elem_of_In|done].
  - rewrite insert_products_free; [done|apply initial_names_distinct|].
    apply list.Forall_forall. intros p Hp. apply not_true_is_false.
    intros Ht.
    assert (existsb (λ p, name_taken (name p) (products db))
              initial_products = true); [|congruence].
    apply existsb_exists. exists p. split; [by apply list_elem_of_In|done].
Qed.

Lemma insert_all_grows {A} (l : list A) (t : gmap Z A) :
  t ⊆ insert_all l t ∧ size (insert_all l t) = (size t + length l)%nat.
Proof.
  revert t. induction l as [|x l IH]; intros t; simpl.
  - split; [done|lia].
  - destruct (IH (<[next_rowid t := x]> t)) as [Hsub Hsize]. split.
    + etrans; [|exact Hsub]. apply insert_subseteq, next_rowid_fresh.
    + rewrite Hsize, map_size_insert_None by apply next_rowid_fresh. lia.
Qed.

(** X2. [init_db] inserts all three initial products or none. When one
    of their names is in use nothing is committed, also not the rows
    inserted before the failing one. Otherwise the three rows are added,
    each under the next rowid, and the products that were there are kept.
    The sales are untouched in both cases. *)
Theorem init_db_all_or_nothing db :
  sales (init_db db) = sales db
  ∧ (initial_name_taken db = true → init_db db = db)
  ∧ (initial_name_taken db = false →
     products (init_db db) = insert_all initial_products (products db)
     ∧ size (products (init_db db)) = (size (products db) + 3)%nat
     ∧ products db ⊆ products (init_db db)).
Proof.
  rewrite init_db_eq. destruct (initial_name_taken db); split_and!; try done.
  intros _. cbn [products set_products].
  destruct (insert_all_grows initial_products (products db)) as [Hsub Hsize].
  by rewrite Hsize.
Qed.

(** X3. [init_db] is idempotent: running it on a database it has already
    been run on changes nothing. *)
Theorem init_db_idempotent db : init_db (init_db db) = init_db db.
Proof.
  rewrite (init_db_eq db).
  destruct (initial_name_taken db) eqn:E.
  - rewrite init_db_eq. by rewrite E.
  - rewrite init_db_eq.
    replace (initial_name_taken _) with true; [done|].
    symmetry. unfold initial_name_taken. apply existsb_exists.
    exists {| name := "Shampoo"; price := 15; stock := 200;
              low_stock_threshold := 20; image_url := "shampoo.png";
              is_watched := 0 |}.
    split; [by left|]. cbn [products set_products].
    apply name_taken_insert_all. by left.
Qed.

(* ===================================================================== *)
(** ** Sums over tables *)
(* ===================================================================== *)

Lemma qsum_perm (l l' : list Q) :
  l ≡ₚ l' → (foldr Qplus 0 l == foldr Qplus 0 l')%Q.
Proof.
  induction 1 as [|x l l' _ IH|x y l|l l' l'' _ IH1 _ IH2]; simpl.
  - reflexivity.
  - by rewrite IH.
  - ring.
  - by rewrite IH1.
Qed.

Lemma zsum_perm (l l' : list Z) :
  l ≡ₚ l' → foldr Z.add 0 l = foldr Z.add 0 l'.
Proof.
  induction 1 as [|x l l' _ IH|x y l|l l' l'' _ IH1 _ IH2]; simpl; lia.
Qed.

Section table_sums.
Context {A : Type}.
Implicit Types (t : gmap Z A) (f : A → Q).

Lemma rows_insert t k x : t !! k = None → rows (<[k := x]> t) ≡ₚ x :: rows t.
Proof.
  intros Hk. unfold rows. by rewrite map_to_list_insert.
Qed.

Lemma rows_delete t k x : t !! k = Some x → rows t ≡ₚ x :: rows (delete k t).
Proof.
  intros Hk. unfold rows. by rewrite <-(map_to_list_delete t k x).
Qed.

Lemma rows_replace t k x y :
  t !! k = Some x → rows (<[k := y]> t) ≡ₚ y :: rows (delete k t).
Proof.
  intros Hk. rewrite <-insert_delete_eq. apply rows_insert, lookup_delete_eq.
Qed.

Lemma table_sum_insert f t k x :
  t !! k = None → (table_sum f (<[k := x]> t) == f x + table_sum f t)%Q.
Proof.
  intros Hk. unfold table_sum.
  rewrite (qsum_perm _ (f <$> x :: rows t)); [done|].
  by rewrite rows_insert.
Qed.

Lemma table_sum_delete f t k x :
  t !! k = Some x → (table_sum f t == f x + table_sum f (delete k t))%Q.
Proof.
  intros Hk. unfold table_sum.
  rewrite (qsum_perm _ (f <$> x :: rows (delete k t))); [done|].
  by rewrite (rows_delete t k x).
Qed.

Lemma table_sum_replace f t k x y :
  t !! k = Some x →
  (table_sum f (<[k := y]> t) == f y - f x + table_sum f t)%Q.
Proof.
  intros Hk. rewrite (table_sum_delete f t k x Hk).
  rewrite <-insert_delete_eq.
  rewrite table_sum_insert by apply lookup_delete_eq. ring.
Qed.
End table_sums.

Lemma total_value_sum db :
  (total_value db == table_sum stock_value (products db))%Q.
Proof. unfold total_value. by rewrite or_zero_sum. Qed.

Lemma total_revenue_sum db :
  (total_revenue db == table_sum (sale_revenue db) (sales db))%Q.
Proof.
  unfold total_revenue, sales_join_products, table_sum.
  rewrite or_zero_sum. apply join_sum.
Qed.

Lemma sold_units_perm k (l l' : list Sale) :
  l ≡ₚ l' → sold_units k l = sold_units k l'.
Proof. intros H. unfold sold_units. apply zsum_perm. by rewrite H. Qed.

Lemma sold_units_cons k s (l : list Sale) :
  sold_units k (s :: l)
  = (if bool_decide (product_id s = k) then quantity s else 0)
    + sold_units k l.
Proof. done. Qed.

(** The revenue of a list of sales: the part of the product [k], and the
    rest. *)
Lemma revenue_split db k (l : list Sale) :
  (foldr Qplus 0 (sale_revenue db <$> l)
   == inject_Z (sold_units k l) * price_at db k
      + foldr Qplus 0
          ((λ s, if bool_decide (product_id s = k) then 0
                 else sale_revenue db s) <$> l))%Q.
Proof.
  induction l as [|s l IH].
  - unfold sold_units. simpl. ring.
  - rewrite !fmap_cons. cbn [foldr]. rewrite IH, (sold_units_cons k s l).
    rewrite inject_Z_plus. case_bool_decide as Hs.
    + unfold sale_revenue, price_at. rewrite Hs.
      destruct (products db !! k); cbn [from_option]; ring.
    + change (inject_Z 0) with 0%Q. ring.
Qed.

(** Two databases with the same products but for the id [k]: their
    revenues over the same sales differ by the units sold under [k] times
    the difference of the prices. *)
Lemma revenue_change_at db db' k (l : list Sale) :
  (∀ j, j ≠ k → products db' !! j = products db !! j) →
  (foldr Qplus 0 (sale_revenue db' <$> l)
   == foldr Qplus 0 (sale_revenue db <$> l)
      + inject_Z (sold_units k l) * (price_at db' k - price_at db k))%Q.
Proof.
  intros Hsame. rewrite (revenue_split db' k), (revenue_split db k).
  assert (((λ s, if bool_decide (product_id s = k) then 0%Q
                 else sale_revenue db' s) <$> l)
          = ((λ s, if bool_decide (product_id s = k) then 0%Q
                   else sale_revenue db s) <$> l)) as ->.
  { apply list_fmap_ext. intros i s _. case_bool_decide as Hs; [done|].
    unfold sale_revenue. by rewrite Hsame. }
  ring.
Qed.

(* ===================================================================== *)
(** ** The metrics across the handlers *)
(* ===================================================================== *)

Lemma price_at_alter (f : Product → Product) k j db :
  (∀ p, price (f p) = price p) →
  price_at (set_products (alter f k (products db)) db) j = price_at db j.
Proof.
  intros Hf. unfold price_at. simpl.
  destruct (decide (k = j)) as [->|Hne].
  - rewrite lookup_alter_eq. destruct (products db !! j); simpl; by rewrite ?Hf.
  - by rewrite lookup_alter_ne.
Qed.

(** Changing columns other than [price] of one product leaves the revenue
    of any list of sales as it is. *)
Lemma revenue_alter (f : Product → Product) k db (l : list Sale) :
  (∀ p, price (f p) = price p) →
  (foldr Qplus 0
     (sale_revenue (set_products (alter f k (products db)) db) <$> l)
   == foldr Qplus 0 (sale_revenue db <$> l))%Q.
Proof.
  intros Hf. rewrite (revenue_change_at db _ k).
  - rewrite price_at_alter by done. ring.
  - intros j Hj. simpl. by rewrite lookup_alter_ne.
Qed.

Lemma sale_revenue_insert_sale s db :
  sale_revenue (insert_sale s db) = sale_revenue db.
Proof. done. Qed.

Section sale_metrics.
Variable py_int : string → option Z.
Variable sqlite_numeric : string → option Z.

(** X5. Sales move units from the stock to the record of sales and lose
    none: for every product id, the stock on hand plus the units recorded
    as sold is the same after any sequence of sale requests, whatever the
    storage does during them. *)
Theorem sales_conserve_units reqs db k :
  on_hand_and_sold (run_sales py_int sqlite_numeric reqs db) k
  = on_hand_and_sold db k.
Proof.
  revert db. induction reqs as [|r reqs IH]; intros db; [done|].
  simpl. rewrite IH. clear IH.
  destruct (process_sale_outcome py_int sqlite_numeric (sr_form r) (sr_now r)
              (sr_schedule r) db)
    as [[-> _]|(q & k0 & p & _ & _ & _ & Hp & _ & ->)]; [done|].
  cbn [fst]. unfold on_hand_and_sold, units_sold.
  cbn [products sales insert_sale set_sales update_stock set_products].
  rewrite (sold_units_perm k _ _ (rows_insert _ _ _ (next_rowid_fresh _))).
  rewrite sold_units_cons. cbn [product_id quantity].
  destruct (decide (k0 = k)) as [->|Hne].
  - rewrite lookup_alter_eq, Hp, bool_decide_eq_true_2 by done. simpl. lia.
  - rewrite lookup_alter_ne, bool_decide_eq_false_2 by done. lia.
Qed.
End sale_metrics.

(** X7. Toggling a watch flag moves no metric: the stock value, the count
    of orders and the revenue are what they were, for every id and every
    database. *)
Theorem toggle_keeps_metrics id db :
  total_orders (toggle_watchlist id db).1 = total_orders db
  ∧ (total_value (toggle_watchlist id db).1 == total_value db)%Q
  ∧ (total_revenue (toggle_watchlist id db).1 == total_revenue db)%Q.
Proof.
  unfold toggle_watchlist. destruct (sqlite_integer id); [|done].
  destruct (products db !! id) as [p|] eqn:Hp; [|done].
  cbn [fst]. split_and!.
  - done.
  - rewrite !total_value_sum. cbn [products update_is_watched set_products].
    rewrite (alter_present _ _ _ _ Hp), (table_sum_replace _ _ _ _ _ Hp).
    unfold stock_value. simpl. ring.
  - rewrite !total_revenue_sum. unfold table_sum, update_is_watched.
    cbn [sales set_products]. by rewrite revenue_alter.
Qed.

(* ===================================================================== *)
(** ** More on [add_product] *)
(* ===================================================================== *)

Section add_product_more.
Variable py_int : string → option Z.
Variable py_float : string → option Q.
Variable secure_filename : string → string.

Local Abbreviation add_product' :=
  (add_product py_int py_float secure_filename).
Local Abbreviation accepted := (fields_accepted py_int py_float).

Lemma image_upload_database req url w w1 u1 :
  image_upload secure_filename req url w = Some (w1, u1) →
  database w1 = database w.
Proof.
  unfold image_upload.
  destruct (files req !! "image_file") as [file|]; [|by intros [= <- _]].
  repeat case_match; by intros [= <- _].
Qed.

(** X8. A new product inherits the sales recorded under its rowid: in
    the join of sales with products after an accepted request with a free
    name, every sale whose product id is the rowid that the new product
    receives is paired with the new product, and every other sale is
    paired as it was before. Sales left behind by a deleted product that
    had this rowid so count for the new product. *)
Theorem new_product_inherits_sales req w n price stock threshold :
  accepted req n price stock →
  form_number py_int 1 (form req !! "threshold") = Some threshold →
  0 < threshold < 2 ^ 63 →
  name_taken n (products (database w)) = false →
  products (database w) !! next_rowid (products (database w)) = None
  ∧ sales_join_products (database (add_product' req w).1)
    = omap
        (λ s,
           if bool_decide (product_id s = next_rowid (products (database w)))
           then Some (s, {| name := n; price := price; stock := stock;
                            low_stock_threshold := threshold;
                            image_url := stored_image secure_filename req;
                            is_watched := 0 |})
           else p ← products (database w) !! product_id s; Some (s, p))
        (rows (sales (database w))).
Proof.
  intros Hacc Hparse Hthr Hfree. split; [apply next_rowid_fresh|].
  rewrite (add_product_accepted _ _ _ req w n price stock threshold)
    by done.
  rewrite insert_product_free by done. cbn [fst database].
  unfold sales_join_products. cbn [sales products set_products].
  generalize (rows (sales (database w))). intros l.
  induction l as [|s l IH]; [done|]. cbn [omap list_omap]. rewrite IH.
  case_bool_decide as Hs.
  - by rewrite Hs, lookup_insert_eq.
  - rewrite lookup_insert_ne by done. done.
Qed.

(** X9. Creating a product and deleting it again gives back the database
    of the start, so the next product created receives the same rowid. *)
Theorem add_then_delete req w n price stock threshold :
  accepted req n price stock →
  form_number py_int 1 (form req !! "threshold") = Some threshold →
  0 < threshold < 2 ^ 63 →
  name_taken n (products (database w)) = false →
  sqlite_integer (next_rowid (products (database w))) = true →
  (delete_product (next_rowid (products (database w)))
     (database (add_product' req w).1)).1
  = database w.
Proof.
  intros Hacc Hparse Hthr Hfree Hid.
  rewrite (add_product_accepted _ _ _ req w n price stock threshold)
    by done.
  rewrite insert_product_free by done. cbn [fst database].
  unfold delete_product. rewrite Hid. cbn [fst].
  unfold delete_from_products. cbn [products set_products].
  rewrite delete_insert_eq, delete_id by apply next_rowid_fresh.
  by destruct (database w).
Qed.

(** X10. A request without a name or without a price never creates a
    product: the missing price is read as 0 and fails the check like an
    empty name does. *)
Theorem add_product_needs_name_and_price req w :
  form req !! "name" = None ∨ form req !! "name" = Some ""
  ∨ form req !! "price" = None ∨ form req !! "price" = Some "" →
  database (add_product' req w).1 = database w
  ∧ reported_success (add_product' req w).2 = false.
Proof.
  intros Hmissing. unfold add_product.
  destruct (method req); [done|].
  destruct (form_number py_float _ _) as [price|] eqn:Hprice; [|done].
  destruct (form_number py_int 0 _) as [stock|]; [|done].
  destruct (form_number py_int 1 _) as [threshold|]; [|done].
  destruct (image_upload _ _ _ _) as [[w1 u1]|] eqn:E; [|done].
  apply image_upload_database in E.
  assert (fields_invalid (form req !! "name") price stock threshold = true)
    as ->; [|by rewrite <-E].
  unfold fields_invalid.
  destruct Hmissing as [->|[->|Hp]]; [done|done|].
  assert (price = 0%Q) as ->.
  { destruct Hp as [Hp|Hp]; rewrite Hp in Hprice; by injection Hprice. }
  destruct (form req !! "name"); [|done]. by destruct (bool_decide _).
Qed.

(** X11. The uploaded file is saved before the fields are checked: a
    request with an allowed file and invalid fields is refused and adds no
    row, but its file is in the upload folder afterwards. *)
Theorem upload_saved_before_validation req w file price stock threshold :
  method req = POST →
  form_number py_float 0%Q (form req !! "price") = Some price →
  form_number py_int 0 (form req !! "stock") = Some stock →
  form_number py_int 1 (form req !! "threshold") = Some threshold →
  files req !! "image_file" = Some file →
  filename file ≠ "" → allowed_file (filename file) = true →
  fields_invalid (form req !! "name") price stock threshold = true →
  add_product' req w
  = ({| database := database w;
        static := <[secure_filename (filename file) := content file]>
                    (static w) |},
     {| flashed := [FieldsInvalid]; response := Redirect AddProduct |}).
Proof.
  intros Hm Hp Hs Ht Hfile Hne Hallowed Hinvalid. unfold add_product.
  rewrite Hm, Hp, Hs, Ht. unfold image_upload.
  rewrite Hfile, Hallowed, bool_decide_eq_false_2 by done.
  cbn [negb andb]. by rewrite Hinvalid.
Qed.

(** X12. A stock or a threshold that passes the checks but does not fit
    64 bits: the driver refuses to bind it, the exception leaves the
    handler, and no row is added. *)
Theorem add_product_unbindable req w price stock threshold :
  method req = POST →
  form_number py_float 0%Q (form req !! "price") = Some price →
  form_number py_int 0 (form req !! "stock") = Some stock →
  form_number py_int 1 (form req !! "threshold") = Some threshold →
  files req !! "image_file" = None →
  fields_invalid (form req !! "name") price stock threshold = false →
  sqlite_integer stock && sqlite_integer threshold = false →
  add_product' req w
  = (w, {| flashed := []; response := Uncaught OverflowError |}).
Proof.
  intros Hm Hp Hs Ht Hfile Hvalid Hfit. unfold add_product.
  rewrite Hm, Hp, Hs, Ht. unfold image_upload. rewrite Hfile, Hvalid, Hfit.
  done.
Qed.
End add_product_more.

Lemma new_product_inherits_sales_witness :
  products orphan_db !! next_rowid (products orphan_db) = None
  ∧ sales_join_products
      (database (add_product decimal_literal decimal_number safe_filename
                   gadget_request {| database := orphan_db; static := ∅ |}).1)
    = omap
        (λ s,
           if bool_decide (product_id s = next_rowid (products orphan_db))
           then Some (s, {| name := "Gadget"; price := 3.50; stock := 0;
                            low_stock_threshold := 1;
                            image_url := stored_image safe_filename
                                           gadget_request;
                            is_watched := 0 |})
           else p ← products orphan_db !! product_id s; Some (s, p))
        (rows (sales orphan_db)).
Proof.
  apply (new_product_inherits_sales decimal_literal decimal_number
           safe_filename gadget_request
           {| database := orphan_db; static := ∅ |} "Gadget" 3.50 0 1).
  - exact gadget_request_accepted.
  - reflexivity.
  - lia.
  - reflexivity.
Defined.

(** The sale of four widgets counts for the gadget that received the
    rowid of the deleted widget. *)
Example orphan_sales_inherited :
  (total_revenue
     (database (add_product decimal_literal decimal_number safe_filename
                  gadget_request {| database := orphan_db; static := ∅ |}).1)
   == 14)%Q.
Proof. reflexivity. Qed.

Lemma add_then_delete_witness :
  (delete_product (next_rowid (products (database widget_world)))
     (database (add_product decimal_literal decimal_number safe_filename
                  gadget_request widget_world).1)).1
  = database widget_world.
Proof.
  apply (add_then_delete decimal_literal decimal_number safe_filename
           gadget_request widget_world "Gadget" 3.50 0 1).
  - exact gadget_request_accepted.
  - reflexivity.
  - lia.
  - reflexivity.
  - reflexivity.
Defined.

Lemma add_product_needs_name_and_price_witness :
  database (add_product decimal_literal decimal_number safe_filename
              unpriced_request widget_world).1
  = database widget_world
  ∧ reported_success
      (add_product decimal_literal decimal_number safe_filename
         unpriced_request widget_world).2
    = false.
Proof.
  apply (add_product_needs_name_and_price decimal_literal decimal_number
           safe_filename unpriced_request widget_world).
  right. right. left. reflexivity.
Defined.

Lemma upload_saved_before_validation_witness :
  add_product decimal_literal decimal_number safe_filename
    unpriced_upload_request widget_world
  = ({| database := database widget_world;
        static := <[safe_filename (filename gadget_image) :=
                      content gadget_image]> (static widget_world) |},
     {| flashed := [FieldsInvalid]; response := Redirect AddProduct |}).
Proof.
  apply (upload_saved_before_validation decimal_literal decimal_number
           safe_filename unpriced_upload_request widget_world gadget_image
           0%Q 0 1); try reflexivity.
  done.
Defined.

Lemma add_product_unbindable_witness :
  add_product decimal_literal decimal_number safe_filename
    huge_stock_request widget_world
  = (widget_world, {| flashed := []; response := Uncaught OverflowError |}).
Proof.
  apply (add_product_unbindable decimal_literal decimal_number safe_filename
           huge_stock_request widget_world 3.50 9223372036854775808 1);
    reflexivity.
Defined.

(* ===================================================================== *)
(** ** More on [process_sale] *)
(* ===================================================================== *)

Section process_sale_more.
Variable py_int : string → option Z.
Variable sqlite_numeric : string → option Z.

Local Abbreviation process_sale' := (process_sale py_int sqlite_numeric).
Local Abbreviation quantity_of := (form_quantity py_int).
Local Abbreviation key_of := (form_product_key sqlite_numeric).

(** X13. When the storage does not fail, a sale of a positive quantity
    that the stock of an existing product covers goes through: the success
    message is shown, the stock of the product is lowered by the quantity,
    the sale is recorded under a rowid that was free, and no other row of
    either table changes. *)
Theorem sale_goes_through form now db q k p :
  quantity_of form = Some q → 0 < q →
  key_of form = Some k → products db !! k = Some p →
  q ≤ stock p → stock p < 2 ^ 63 →
  (process_sale' form now [] db).2
  = {| flashed := [SaleProcessed q]; response := Redirect Index |}
  ∧ products (process_sale' form now [] db).1 !! k
    = Some (set_stock (stock p - q) p)
  ∧ (∀ j, j ≠ k →
       products (process_sale' form now [] db).1 !! j = products db !! j)
  ∧ sales db !! next_rowid (sales db) = None
  ∧ sales (process_sale' form now [] db).1 !! next_rowid (sales db)
    = Some {| product_id := k; quantity := q; sale_date := now |}
  ∧ (∀ j, j ≠ next_rowid (sales db) →
       sales (process_sale' form now [] db).1 !! j = sales db !! j).
Proof.
  intros Hq Hpos Hk Hp Hle Hfit.
  rewrite (process_sale_sold py_int sqlite_numeric form now db q k p);
    [|done..|unfold sqlite_integer; lia].
  cbn [fst snd products sales insert_sale set_sales update_stock
       set_products].
  split_and!.
  - done.
  - by rewrite lookup_alter_eq, Hp.
  - intros j Hj. by rewrite lookup_alter_ne.
  - apply next_rowid_fresh.
  - by rewrite lookup_insert_eq.
  - intros j Hj. by rewrite lookup_insert_ne.
Qed.

(** X14. When the storage fails at [BEGIN TRANSACTION], the [ROLLBACK] of
    the exception handler has no transaction to roll back and fails too:
    the exception leaves the handler, no message is flashed, and the
    database is unchanged. *)
Theorem sale_begin_failure form now rest db q :
  form_quantity py_int form = Some q → 0 < q →
  process_sale py_int sqlite_numeric form now (true :: rest) db
  = (db, {| flashed := []; response := Uncaught OperationalError |}).
Proof.
  intros Hq Hpos. unfold process_sale. rewrite Hq.
  apply Z.leb_gt in Hpos as ->.
  destruct rest as [|[] rest]; reflexivity.
Qed.

(** X15. When the storage does not fail, every sale request is answered
    with the redirect to the index and exactly one flashed message. *)
Theorem sale_one_message form now db :
  response (process_sale py_int sqlite_numeric form now [] db).2
  = Redirect Index
  ∧ length (flashed (process_sale py_int sqlite_numeric form now [] db).2)
    = 1%nat.
Proof.
  unfold process_sale.
  destruct (quantity_of form) as [q|]; [|done].
  destruct (q <=? 0); [done|].
  pattern (reply_of (Redirect Index)
    (try_finally
       (try_except (sale_transaction (key_of form) q now)
          (λ e : Exn, rollback;; flash (SaleError e)))
       close (connect [] db))).
  apply wp_reply. unfold_statements. wp_run.
  destruct (key_of form ≫= λ k, stock <$> products db !! k)
    as [current_stock|]; [|by wp_run].
  destruct (current_stock <? q); [by wp_run|].
  wp_run; try done.
  destruct (key_of form); by wp_run.
Qed.
End process_sale_more.

Lemma sale_goes_through_witness :
  (process_sale decimal_literal decimal_literal (sale_form "1" "4")
     "2024-01-01 10:00:00" [] widget_db).2
  = {| flashed := [SaleProcessed 4]; response := Redirect Index |}
  ∧ products sold_db !! 1 = Some (set_stock (stock widget - 4) widget)
  ∧ (∀ j, j ≠ 1 → products sold_db !! j = products widget_db !! j)
  ∧ sales widget_db !! next_rowid (sales widget_db) = None
  ∧ sales sold_db !! next_rowid (sales widget_db)
    = Some {| product_id := 1; quantity := 4;
              sale_date := "2024-01-01 10:00:00" |}
  ∧ (∀ j, j ≠ next_rowid (sales widget_db) →
       sales sold_db !! j = sales widget_db !! j).
Proof.
  apply (sale_goes_through decimal_literal decimal_literal
           (sale_form "1" "4") "2024-01-01 10:00:00" widget_db 4 1 widget);
    first [reflexivity | simpl; lia].
Defined.

Lemma sale_begin_failure_witness :
  process_sale decimal_literal decimal_literal (sale_form "1" "4")
    "2024-01-01 10:00:00" [true; false] widget_db
  = (widget_db, {| flashed := []; response := Uncaught OperationalError |}).
Proof.
  apply (sale_begin_failure decimal_literal decimal_literal
           (sale_form "1" "4") "2024-01-01 10:00:00" [false] widget_db 4);
    [reflexivity | lia].
Defined.

(* ===================================================================== *)
(** ** How the handlers compose *)
(* ===================================================================== *)

(** X16. Toggles commute: toggling two products one after the other gives
    the same database in either order. *)
Theorem toggle_watchlist_commute a b db :
  (toggle_watchlist a (toggle_watchlist b db).1).1
  = (toggle_watchlist b (toggle_watchlist a db).1).1.
Proof.
  destruct (decide (a = b)) as [->|Hne]; [done|].
  unfold toggle_watchlist.
  destruct (sqlite_integer a), (sqlite_integer b); try done.
  destruct (products db !! a) as [pa|] eqn:Ha,
           (products db !! b) as [pb|] eqn:Hb; cbn [fst];
    unfold update_is_watched; cbn [products set_products];
    rewrite ?lookup_alter_ne by done; rewrite ?Ha, ?Hb; cbn [fst];
    unfold update_is_watched; cbn [products set_products sales];
    try done.
  unfold set_products. cbn [sales]. f_equal. by apply alter_alter_ne.
Qed.

(** X17. A row of [sales] is never changed or removed: after any request
    to any handler, every row that was there is there unchanged. *)
Theorem sales_rows_kept db :
  (∀ id, sales (delete_product id db).1 = sales db)
  ∧ (∀ id, sales (toggle_watchlist id db).1 = sales db)
  ∧ sales (init_db db) = sales db
  ∧ (∀ py_int py_float secure_filename req files,
       sales (database (add_product py_int py_float secure_filename req
                          {| database := db; static := files |}).1)
       = sales db)
  ∧ (∀ py_int sqlite_numeric form now schedule,
       sales db
       ⊆ sales (process_sale py_int sqlite_numeric form now schedule db).1).
Proof.
  split_and!.
  - intros id. unfold delete_product. by case_match.
  - intros id. unfold toggle_watchlist. by repeat case_match.
  - rewrite init_db_eq. by case_match.
  - intros py_int py_float secure_filename req files. unfold add_product.
    destruct (method req); [done|].
    destruct (form_number py_float _ _) as [price|]; [|done].
    destruct (form_number py_int 0 _) as [stock|]; [|done].
    destruct (form_number py_int 1 _) as [threshold|]; [|done].
    destruct (image_upload _ _ _ _) as [[w1 u1]|] eqn:E; [|done].
    apply image_upload_database in E. simpl in E.
    unfold flash_and, no_flash.
    destruct (fields_invalid _ _ _ _); [cbn [fst]; by rewrite E|].
    destruct (negb _); [cbn [fst]; by rewrite E|].
    unfold insert_product. rewrite E.
    destruct (name_taken _ _); cbn [fst database]; [by rewrite E|done].
  - intros py_int sqlite_numeric form now schedule.
    destruct (process_sale_outcome py_int sqlite_numeric form now schedule db)
      as [[-> _]|(q & k & p & _ & _ & _ & _ & _ & ->)]; [done|].
    cbn [fst sales insert_sale set_sales update_stock set_products].
    apply insert_subseteq, next_rowid_fresh.
Qed.

(* ===================================================================== *)
(** ** The count of orders and the join *)
(* ===================================================================== *)

Lemma add_product_sales py_int py_float secure_filename req w :
  sales (database (add_product py_int py_float secure_filename req w).1)
  = sales (database w).
Proof.
  unfold add_product.
  destruct (method req); [done|].
  destruct (form_number py_float _ _) as [price|]; [|done].
  destruct (form_number py_int 0 _) as [stock|]; [|done].
  destruct (form_number py_int 1 _) as [threshold|]; [|done].
  destruct (image_upload _ _ _ _) as [[w1 u1]|] eqn:E; [|done].
  apply image_upload_database in E.
  unfold flash_and, no_flash.
  destruct (fields_invalid _ _ _ _); [cbn [fst]; by rewrite E|].
  destruct (negb _); [cbn [fst]; by rewrite E|].
  unfold insert_product. rewrite E.
  destruct (name_taken _ _); cbn [fst database]; [by rewrite E|done].
Qed.

(** X4. The count of orders rises by exactly one with every sale that
    reports success, and nothing else moves it: not a sale that fails, for
    whatever reason, nor a deletion, a toggle, a creation or [init_db]. *)
Theorem total_orders_counts_sales db :
  (∀ id, total_orders (delete_product id db).1 = total_orders db)
  ∧ (∀ id, total_orders (toggle_watchlist id db).1 = total_orders db)
  ∧ total_orders (init_db db) = total_orders db
  ∧ (∀ py_int py_float secure_filename req files,
       total_orders
         (database (add_product py_int py_float secure_filename req
                      {| database := db; static := files |}).1)
       = total_orders db)
  ∧ (∀ py_int sqlite_numeric form now schedule,
       total_orders (process_sale py_int sqlite_numeric form now schedule db).1
       = total_orders db
         + (if reported_success
                 (process_sale py_int sqlite_numeric form now schedule db).2
            then 1 else 0)).
Proof.
  unfold total_orders. split_and!.
  - intros id. unfold delete_product. by case_match.
  - intros id. unfold toggle_watchlist. by repeat case_match.
  - rewrite init_db_eq. by case_match.
  - intros py_int py_float secure_filename req files.
    by rewrite add_product_sales.
  - intros py_int sqlite_numeric form now schedule.
    destruct (process_sale_outcome py_int sqlite_numeric form now schedule db)
      as [[H1 H2]|(q & k & p & _ & _ & _ & _ & _ & ->)];
      [rewrite H1, H2; lia|].
    cbn [fst snd sales insert_sale set_sales update_stock set_products].
    rewrite map_size_insert_None by apply next_rowid_fresh.
    assert (reported_success
              {| flashed := [SaleProcessed q]; response := Redirect Index |}
            = true) as -> by reflexivity.
    lia.
Qed.

(** X6. Deleting a product takes its sales out of the join that the
    revenue and the top sellers are computed from, but not out of the
    count of orders: the join keeps exactly the pairs of the other
    products, and the count is what it was. *)
Theorem delete_drops_joined_sales id db :
  sqlite_integer id = true →
  total_orders (delete_product id db).1 = total_orders db
  ∧ sales_join_products (delete_product id db).1
    = filter (λ sp, product_id sp.1 ≠ id) (sales_join_products db).
Proof.
  intros Hid. unfold delete_product. rewrite Hid. cbn [fst]. split; [done|].
  unfold sales_join_products.
  cbn [sales products delete_from_products set_products].
  generalize (rows (sales db)). intros l.
  induction l as [|s l IH]; [done|]. cbn [omap list_omap]. rewrite IH.
  destruct (decide (product_id s = id)) as [Hs|Hs].
  - rewrite Hs, lookup_delete_eq. cbn [mbind option_bind].
    destruct (products db !! id) as [p|]; cbn [mbind option_bind]; [|done].
    rewrite filter_cons_False; [done|]. simpl. by intros ?.
  - rewrite lookup_delete_ne by done.
    destruct (products db !! product_id s) as [p|]; cbn [mbind option_bind];
      [|done].
    by rewrite filter_cons_True.
Qed.

Lemma delete_drops_joined_sales_witness :
  total_orders (delete_product 1 sold_db).1 = total_orders sold_db
  ∧ sales_join_products (delete_product 1 sold_db).1
    = filter (λ sp, product_id sp.1 ≠ 1) (sales_join_products sold_db).
Proof. apply (delete_drops_joined_sales 1 sold_db). reflexivity. Defined.

(* ===================================================================== *)
(** ** What the program stores *)
(* ===================================================================== *)

Lemma rows_valid_insert_product db db' p :
  rows_valid db → product_valid p →
  insert_product p db = inr db' → rows_valid db'.
Proof.
  intros [Hp Hs] Hv. unfold insert_product. case_match; [done|].
  intros [= <-]. split; [by apply map_Forall_insert_2|done].
Qed.

Lemma rows_valid_alter f k db :
  rows_valid db → (∀ p, products db !! k = Some p → product_valid (f p)) →
  rows_valid (set_products (alter f k (products db)) db).
Proof.
  intros [Hp Hs] Hf. split; [|done]. cbn [products set_products].
  destruct (products db !! k) as [p|] eqn:Hk.
  - rewrite (alter_present _ _ _ _ Hk). apply map_Forall_insert_2; auto.
  - intros j x Hj. destruct (decide (k = j)) as [->|Hne].
    + rewrite lookup_alter_eq, Hk in Hj. done.
    + rewrite lookup_alter_ne in Hj by done. by apply (Hp j).
Qed.

Lemma rows_valid_init_db db : rows_valid db → rows_valid (init_db db).
Proof.
  intros Hdb. unfold init_db.
  destruct (insert_products initial_products db) as [e|db'] eqn:E; [done|].
  revert E. unfold initial_products. simpl.
  repeat (match goal with
          | |- context [insert_product ?p ?d] =>
              let H := fresh in
              destruct (insert_product p d) eqn:H; [done|];
              apply rows_valid_insert_product in H;
              [|done|unfold product_valid, flag_boolean; simpl;
                     split_and!; first [done | lia | auto]]
          end).
  by intros [= <-].
Qed.

Lemma rows_valid_delete_product id db :
  rows_valid db → rows_valid (delete_product id db).1.
Proof.
  intros [Hp Hs]. unfold delete_product. case_match; [|done].
  split; [by apply map_Forall_delete|done].
Qed.

Lemma rows_valid_toggle_watchlist id db :
  rows_valid db → rows_valid (toggle_watchlist id db).1.
Proof.
  intros Hdb. unfold toggle_watchlist. case_match; [|done].
  destruct (products db !! id) as [p|] eqn:Hp; [|done].
  cbn [fst]. apply rows_valid_alter; [done|].
  intros p' Hp'. destruct Hdb as [Hv _].
  destruct (Hv id p' Hp') as (? & ? & ? & ? & ?).
  unfold product_valid, flag_boolean. simpl.
  split_and!; try done; try lia.
  destruct (is_watched p =? 0); auto.
Qed.

Lemma rows_valid_process_sale py_int sqlite_numeric form now schedule db :
  rows_valid db →
  rows_valid (process_sale py_int sqlite_numeric form now schedule db).1.
Proof.
  intros Hdb.
  destruct (process_sale_outcome py_int sqlite_numeric form now schedule db)
    as [[-> _]|(q & k & p & _ & Hpos & _ & Hp & Hle & ->)]; [done|].
  cbn [fst]. pose proof Hdb as [Hv Hs].
  destruct (Hv k p Hp) as (? & ? & ? & ? & ?).
  assert (rows_valid (update_stock (stock p - q) k db)) as [Hv' _].
  { apply rows_valid_alter; [done|]. intros p' Hp'.
    assert (p' = p) as -> by congruence.
    unfold product_valid, flag_boolean. simpl. split_and!; try done; lia. }
  split; [done|].
  cbn [sales insert_sale set_sales update_stock set_products].
  apply map_Forall_insert_2; [|done]. unfold sale_valid. simpl. lia.
Qed.

Lemma rows_valid_add_product py_int py_float secure_filename req w :
  rows_valid (database w) →
  rows_valid (database (add_product py_int py_float secure_filename req w).1).
Proof.
  intros Hdb. unfold add_product.
  destruct (method req); [done|].
  destruct (form_number py_float _ _) as [price|]; [|done].
  destruct (form_number py_int 0 _) as [stock|]; [|done].
  destruct (form_number py_int 1 _) as [threshold|]; [|done].
  destruct (image_upload _ _ _ _) as [[w1 u1]|] eqn:E; [|done].
  apply image_upload_database in E.
  unfold flash_and, no_flash.
  destruct (fields_invalid _ _ _ _) eqn:Hvalid; [cbn [fst]; by rewrite E|].
  destruct (sqlite_integer stock && sqlite_integer threshold) eqn:Hfit;
    cbn [negb]; [|cbn [fst]; by rewrite E].
  destruct (insert_product _ _) as [e|db'] eqn:Hins;
    [cbn [fst]; by rewrite E|].
  cbn [fst database]. rewrite E in Hins.
  apply rows_valid_insert_product in Hins; [done|done|].
  unfold fields_invalid in Hvalid.
  destruct (form req !! "name") as [n|]; [|done].
  apply orb_false_elim in Hvalid as [Hvalid Hthr].
  apply orb_false_elim in Hvalid as [Hvalid Hstock].
  apply orb_false_elim in Hvalid as [Hname Hprice].
  apply andb_true_iff in Hfit as [Hfs Hft].
  unfold sqlite_integer in Hfs, Hft.
  unfold product_valid, flag_boolean. simpl. split_and!; try lia.
  - by apply bool_decide_eq_false in Hname.
  - apply Qnot_le_lt. intros Hle. apply Qle_bool_iff in Hle. congruence.
Qed.

(** X18. Every database that the program produces from the empty tables
    holds only rows that pass its own checks: product names are not empty
    and pairwise different, prices and thresholds are positive, stocks are
    not negative, watch flags are 0 or 1, sold quantities are positive, and
    all these integers fit 64 bits. *)
Theorem reachable_rows_valid db :
  reachable db → rows_valid db ∧ names_unique (products db).
Proof.
  intros Hr. split; [|by apply reachable_well_formed].
  induction Hr as [|db _ IH|pi pf sf req files db _ IH|id db _ IH
                   |pi sn form now schedule db _ IH|id db _ IH].
  - split; apply map_Forall_empty.
  - by apply rows_valid_init_db.
  - by apply (rows_valid_add_product pi pf sf req
                {| database := db; static := files |}).
  - by apply rows_valid_delete_product.
  - by apply rows_valid_process_sale.
  - by apply rows_valid_toggle_watchlist.
Qed.

Lemma reachable_rows_valid_witness :
  rows_valid
    (process_sale decimal_literal decimal_literal (sale_form "1" "4")
       "2024-01-01 10:00:00" [] (init_db empty_db)).1
  ∧ names_unique
      (products
         (process_sale decimal_literal decimal_literal (sale_form "1" "4")
            "2024-01-01 10:00:00" [] (init_db empty_db)).1).
Proof.
  apply reachable_rows_valid.
  apply reach_process_sale, reach_init_db, reach_empty.
Defined.

(* ===================================================================== *)
(** ** The top sellers *)
(* ===================================================================== *)

Lemma sold_names_joined db n :
  n ∈ sold_names db ↔
  ∃ s p, s ∈ rows (sales db) ∧ products db !! product_id s = Some p
         ∧ name p = n.
Proof.
  unfold sold_names, sales_join_products.
  rewrite elem_of_remove_dups, list_elem_of_fmap. split.
  - intros ([s p] & -> & Hin). apply list_elem_of_omap in Hin
      as (s' & Hs' & Hjoin).
    destruct (products db !! product_id s') as [p'|] eqn:Hp'; [|done].
    simpl in Hjoin. injection Hjoin as <- <-. by exists s', p'.
  - intros (s & p & Hs & Hp & <-). exists (s, p). split; [done|].
    apply list_elem_of_omap. exists s. split; [done|]. by rewrite Hp.
Qed.

Lemma sql_sum_int_from_positive acc (l : list Z) :
  0 ≤ acc < 2 ^ 63 → Forall (λ x, 0 < x) l →
  sql_sum_int_from acc l
  = if acc + foldr Z.add 0 l <? 2 ^ 63 then inr (acc + foldr Z.add 0 l)
    else inl OperationalError.
Proof.
  intros Hacc Hpos. revert acc Hacc.
  induction Hpos as [|x l Hx Hl IH]; intros acc Hacc; simpl.
  - rewrite Z.add_0_r. by assert ((acc <? 2 ^ 63) = true) as -> by lia.
  - assert (0 ≤ foldr Z.add 0 l) as Hsum.
    { clear IH. induction Hl; simpl; lia. }
    destruct (sqlite_integer (acc + x)) eqn:Hfit; unfold sqlite_integer in Hfit.
    + rewrite IH by lia. by rewrite Z.add_assoc.
    + by assert ((acc + (x + foldr Z.add 0 l) <? 2 ^ 63) = false) as -> by lia.
Qed.

Lemma group_quantities_positive db n :
  rows_valid db → Forall (λ x, 0 < x) (group_quantities db n).
Proof.
  intros [_ Hs]. apply list.Forall_forall. intros x Hx.
  apply list_elem_of_fmap in Hx as ([s p] & -> & Hin).
  apply list_elem_of_filter in Hin as [_ Hin].
  apply list_elem_of_omap in Hin as (s' & Hs' & Hjoin).
  destruct (products db !! product_id s'); [|done].
  simpl in Hjoin. injection Hjoin as <- <-.
  apply list_elem_of_fmap in Hs' as ([k s''] & -> & Hk).
  apply elem_of_map_to_list in Hk. apply (Hs k s'' Hk).
Qed.

(** The [SUM] of a group on valid rows: the total if it fits 64 bits, the
    failure if it does not. *)
Lemma units_of_name_valid db n :
  rows_valid db →
  units_of_name db n
  = if joined_units db n <? 2 ^ 63 then inr (joined_units db n)
    else inl OperationalError.
Proof.
  intros Hdb. unfold units_of_name, sql_sum_int, joined_units.
  rewrite sql_sum_int_from_positive;
    [done|lia|by apply group_quantities_positive].
Qed.

Lemma group_sums_fit db (names : list string) :
  rows_valid db →
  (∀ n, n ∈ names → joined_units db n < 2 ^ 63) →
  group_sums db names = inr ((λ n, (n, joined_units db n)) <$> names).
Proof.
  intros Hdb. induction names as [|n names IH]; intros Hfit; [done|].
  simpl. rewrite units_of_name_valid by done.
  assert ((joined_units db n <? 2 ^ 63) = true) as ->.
  { apply Z.ltb_lt, Hfit. by left. }
  rewrite IH; [done|]. intros n' Hn'. apply Hfit. by right.
Qed.

Lemma group_sums_overflow db (names : list string) n :
  rows_valid db → n ∈ names → 2 ^ 63 ≤ joined_units db n →
  group_sums db names = inl OperationalError.
Proof.
  intros Hdb Hin Hbig. induction names as [|n' names IH]; [by inversion Hin|].
  simpl. rewrite units_of_name_valid by done.
  destruct (joined_units db n' <? 2 ^ 63) eqn:Hfit; [|done].
  rewrite IH; [done|].
  apply elem_of_cons in Hin as [->|Hin]; [lia|done].
Qed.

(** X19. The top sellers on a database of valid rows, for any way SQLite
    orders equal sums. When the sales of some name add up to 2^63 units or
    more, the sum overflows and the page fails with the exception of the
    query. Otherwise the list has five entries, or as many as there are
    names with sales if fewer; each entry is the name of an existing
    product that a sale refers to, with the total quantity of the sales
    joined to the products of that name, so sales of deleted products are
    not counted; and no name left out has sold more than a listed one. *)
Theorem top_products_spec order db :
  sorts_by_units_desc order → rows_valid db →
  ((∃ n, n ∈ sold_names db ∧ 2 ^ 63 ≤ joined_units db n) →
   top_products order db = inl OperationalError
   ∧ visualization_page order db = inl OperationalError)
  ∧ ((∀ n, n ∈ sold_names db → joined_units db n < 2 ^ 63) →
     ∃ top,
       top_products order db = inr top
       ∧ length top = (5 `min` length (sold_names db))%nat
       ∧ (∀ n u, (n, u) ∈ top →
            u = joined_units db n
            ∧ ∃ s p, s ∈ rows (sales db)
                     ∧ products db !! product_id s = Some p ∧ name p = n)
       ∧ (∀ n u n', (n, u) ∈ top → n' ∈ sold_names db →
            (n', joined_units db n') ∉ top → joined_units db n' ≤ u)).
Proof.
  intros Horder Hdb. split.
  - intros (n & Hn & Hbig). unfold visualization_page, top_products,
      units_by_name.
    by rewrite (group_sums_overflow db _ n).
  - intros Hfit. unfold top_products, units_by_name.
    rewrite group_sums_fit by done.
    set (groups := (λ n, (n, joined_units db n)) <$> sold_names db).
    destruct (Horder groups) as [Hperm Hsorted].
    exists (take 5 (order groups)). split_and!; [done..| | |].
    + rewrite length_take, Hperm. unfold groups. by rewrite length_fmap.
    + intros n u Hin. apply subseteq_take in Hin. rewrite Hperm in Hin.
      apply list_elem_of_fmap in Hin as (n0 & [= -> ->] & Hn0).
      split; [done|]. by apply sold_names_joined.
    + intros n u n' Hin Hn' Hout.
      rewrite <-(take_drop 5 (order groups)) in Hsorted.
      assert ((n', joined_units db n') ∈ drop 5 (order groups)) as Hdrop.
      { assert ((n', joined_units db n') ∈ order groups) as Hall.
        { rewrite Hperm. apply list_elem_of_fmap. by exists n'. }
        rewrite <-(take_drop 5 (order groups)) in Hall.
        apply elem_of_app in Hall as [Htake|Hdrop]; [done|done]. }
      apply (StronglySorted_app_1_elem_of _ _ _ _ _ Hsorted Hin Hdrop).
Qed.

Lemma joined_units_product db k p (l : list Sale) :
  names_unique (products db) → products db !! k = Some p →
  foldr Z.add 0
    ((λ sp : Sale * Product, quantity sp.1)
       <$> filter (λ sp : Sale * Product, name sp.2 = name p)
             (omap (λ s, p ← products db !! product_id s; Some (s, p)) l))
  = sold_units k l.
Proof.
  intros Hu Hk. induction l as [|s l IH]; [done|].
  rewrite sold_units_cons. cbn [omap list_omap].
  destruct (products db !! product_id s) as [p'|] eqn:Hp';
    cbn [mbind option_bind].
  - destruct (decide (product_id s = k)) as [Hs|Hs].
    + subst k. assert (p' = p) as -> by congruence.
      rewrite filter_cons_True by done. rewrite fmap_cons. cbn [foldr fst].
      by rewrite IH, bool_decide_eq_true_2.
    + rewrite filter_cons_False.
      * by rewrite IH, bool_decide_eq_false_2.
      * simpl. intros Hname. apply Hs. by apply (Hu _ _ p' p).
  - rewrite IH, bool_decide_eq_false_2; [done|]. intros Hs. congruence.
Qed.

(** X20. On a database of valid rows in which no two products have the
    same name, as is every database the program produces, the sum that
    the top sellers compute for the name of a product is the number of
    units recorded as sold under its id, if that number fits 64 bits, and
    the failure of the query if it does not. *)
Theorem units_of_name_product db k p :
  rows_valid db → names_unique (products db) → products db !! k = Some p →
  units_of_name db (name p)
  = if units_sold db k <? 2 ^ 63 then inr (units_sold db k)
    else inl OperationalError.
Proof.
  intros Hdb Hu Hk. rewrite units_of_name_valid by done.
  assert (joined_units db (name p) = units_sold db k) as ->; [|done].
  unfold joined_units, group_quantities, sales_join_products, units_sold.
  by apply joined_units_product.
Qed.

#[global] Instance by_units_desc_total : Total by_units_desc.
Proof. intros x y. unfold by_units_desc. lia. Qed.

#[global] Instance by_units_desc_trans : Transitive by_units_desc.
Proof. intros x y z. unfold by_units_desc. lia. Qed.

Lemma merge_sort_units_sorts : sorts_by_units_desc merge_sort_units.
Proof.
  intros l. split.
  - apply merge_sort_Permutation.
  - apply (StronglySorted_merge_sort by_units_desc).
Defined.

Lemma sold_db_tables :
  products sold_db = {[ 1 := set_stock 6 widget ]}
  ∧ sales sold_db = {[ 1 := {| product_id := 1; quantity := 4;
                               sale_date := "2024-01-01 10:00:00" |} ]}.
Proof. split; reflexivity. Defined.

Lemma sold_db_rows_valid : rows_valid sold_db.
Proof.
  destruct sold_db_tables as [Hp Hs]. unfold rows_valid.
  rewrite Hp, Hs. split; apply map_Forall_singleton.
  - unfold product_valid, flag_boolean. simpl.
    split_and!; first [done | lia | by left].
  - unfold sale_valid. simpl. lia.
Defined.

Lemma sold_db_names_unique : names_unique (products sold_db).
Proof.
  destruct sold_db_tables as [Hp _]. rewrite Hp.
  intros i j p q Hi Hj _.
  apply lookup_singleton_Some in Hi as [<- _].
  apply lookup_singleton_Some in Hj as [<- _]. reflexivity.
Defined.

Lemma big_db_rows_valid : rows_valid big_db.
Proof.
  unfold big_db. cbv zeta.
  apply rows_valid_process_sale.
  apply (rows_valid_add_product _ _ _ _ {| database := _; static := ∅ |}).
  apply rows_valid_delete_product, rows_valid_process_sale.
  apply (rows_valid_add_product _ _ _ _
           {| database := empty_db; static := ∅ |}).
  split; apply map_Forall_empty.
Defined.

Lemma top_products_spec_witness :
  (top_products merge_sort_units big_db = inl OperationalError
   ∧ visualization_page merge_sort_units big_db = inl OperationalError)
  ∧ ∃ top,
      top_products merge_sort_units sold_db = inr top
      ∧ length top = (5 `min` length (sold_names sold_db))%nat
      ∧ (∀ n u, (n, u) ∈ top →
           u = joined_units sold_db n
           ∧ ∃ s p, s ∈ rows (sales sold_db)
                    ∧ products sold_db !! product_id s = Some p ∧ name p = n)
      ∧ (∀ n u n', (n, u) ∈ top → n' ∈ sold_names sold_db →
           (n', joined_units sold_db n') ∉ top →
           joined_units sold_db n' ≤ u).
Proof.
  split.
  - apply (top_products_spec merge_sort_units big_db).
    + exact merge_sort_units_sorts.
    + exact big_db_rows_valid.
    + exists "Big". split; [|vm_compute; discriminate].
      vm_compute. apply list_elem_of_singleton. reflexivity.
  - apply (top_products_spec merge_sort_units sold_db).
    + exact merge_sort_units_sorts.
    + exact sold_db_rows_valid.
    + intros n Hn. vm_compute in Hn.
      apply list_elem_of_singleton in Hn as ->. vm_compute. reflexivity.
Defined.

Lemma units_of_name_product_witness :
  units_of_name sold_db (name (set_stock 6 widget))
  = if units_sold sold_db 1 <? 2 ^ 63 then inr (units_sold sold_db 1)
    else inl OperationalError.
Proof.
  apply (units_of_name_product sold_db 1 (set_stock 6 widget)).
  - exact sold_db_rows_valid.
  - exact sold_db_names_unique.
  - reflexivity.
Defined.

Example top_products_widget :
  top_products merge_sort_units sold_db = inr [("Widget", 4)]
  ∧ top_products merge_sort_units orphan_db = inr [].
Proof. split; reflexivity. Qed.

(** Five requests lead to a database on which the page of the metrics
    fails: the sales of the name add up to 2^63 units. *)
Example top_products_overflow :
  reachable big_db
  ∧ joined_units big_db "Big" = 9223372036854775808
  ∧ top_products merge_sort_units big_db = inl OperationalError.
Proof.
  split_and!; [|reflexivity..].
  unfold big_db. cbv zeta.
  apply reach_process_sale, reach_add_product, reach_delete_product,
    reach_process_sale, reach_add_product, reach_empty.
Qed.

Lemma init_db_all_or_nothing_witness :
  init_db (init_db empty_db) = init_db empty_db
  ∧ products (init_db empty_db)
    = insert_all initial_products (products empty_db)
  ∧ size (products (init_db empty_db)) = (size (products empty_db) + 3)%nat
  ∧ products empty_db ⊆ products (init_db empty_db).
Proof.
  split.
  - apply (init_db_all_or_nothing (init_db empty_db)). reflexivity.
  - apply (init_db_all_or_nothing empty_db). reflexivity.
Defined.

(* ===================================================================== *)
(** ** The metrics are not negative *)
(* ===================================================================== *)

Lemma qsum_nonneg (l : list Q) :
  Forall (λ x, (0 <= x)%Q) l → (0 <= foldr Qplus 0 l)%Q.
Proof.
  induction 1 as [|x l Hx _ IH]; simpl; [done|].
  exact (Qplus_le_compat 0 x 0 _ Hx IH).
Qed.

Lemma table_sum_nonneg {A} (f : A → Q) (t : gmap Z A) :
  map_Forall (λ _ x, (0 <= f x)%Q) t → (0 <= table_sum f t)%Q.
Proof.
  intros Ht. apply qsum_nonneg, list.Forall_forall. intros y Hy.
  apply list_elem_of_fmap in Hy as (x & -> & Hx).
  apply list_elem_of_fmap in Hx as ([k x'] & -> & Hkx).
  apply elem_of_map_to_list in Hkx. by apply (Ht k).
Qed.

(** X21. On a database whose rows pass the checks of the program, which
    are all it ever stores, the stock value, the count of orders and the
    revenue are not negative. *)
Theorem metrics_nonnegative db :
  rows_valid db →
  (0 <= total_value db)%Q ∧ 0 ≤ total_orders db ∧ (0 <= total_revenue db)%Q.
Proof.
  intros [Hp Hs]. split_and!.
  - rewrite total_value_sum. apply table_sum_nonneg.
    intros k p Hk. destruct (Hp k p Hk) as (_ & Hprice & Hstock & _).
    unfold stock_value. apply Qmult_le_0_compat.
    + change 0%Q with (inject_Z 0). rewrite <-Zle_Qle. lia.
    + by apply Qlt_le_weak.
  - unfold total_orders. lia.
  - rewrite total_revenue_sum. apply table_sum_nonneg.
    intros k s Hk. specialize (Hs k s Hk). unfold sale_valid in Hs.
    unfold sale_revenue.
    destruct (products db !! product_id s) as [p|] eqn:Hprod; [|done].
    destruct (Hp _ p Hprod) as (_ & Hprice & _).
    apply Qmult_le_0_compat.
    + change 0%Q with (inject_Z 0). rewrite <-Zle_Qle. lia.
    + by apply Qlt_le_weak.
Qed.

Lemma widget_db_rows_valid : rows_valid widget_db.
Proof.
  split; [|apply map_Forall_empty].
  apply map_Forall_singleton. unfold product_valid, flag_boolean. simpl.
  split_and!; first [done | lia | by left].
Defined.

Lemma metrics_nonnegative_witness :
  (0 <= total_value widget_db)%Q ∧ 0 ≤ total_orders widget_db
  ∧ (0 <= total_revenue widget_db)%Q.
Proof. apply (metrics_nonnegative widget_db), widget_db_rows_valid. Defined.
